(** * Admin panel: a shallow embedding of the HTTP client, the API modules,
      the page handlers and the generic table renderer.

    Source files embedded here (paths relative to [admin-panel/src]):
    - [api/client.ts] (two copies), [api/categories.ts], [api/products.ts],
      [api/retailers.ts], [api/orders.ts];
    - [App.tsx] (the query client configuration);
    - [components/common/DataTable.tsx];
    - [pages/categories/CategoriesPage.tsx], [pages/retailers/RetailersPage.tsx],
      [pages/products/ProductsPage.tsx],
      [pages/retailer-products/RetailerProductsPage.tsx],
      [pages/orders/OrdersPage.tsx], [pages/orders/OrderDetailPage.tsx].

    JavaScript values are modelled as follows: [string | undefined] and
    [string | null] are [option string]; an object used as a string-keyed
    dictionary (local storage, request headers, a table row) is a
    [gmap string _]; an optional object field is an [option]. *)

From Stdlib Require Import String Ascii List Bool ZArith Lia DecimalString.
From stdpp Require Import base decidable option list strings gmap fin_maps.

Local Open Scope string_scope.
Local Open Scope Z_scope.

Import ListNotations.

Set Warnings "-register-all".

(** ** JavaScript truthiness of strings *)

(** A JavaScript string is falsy exactly when it is empty. *)
Definition truthy (s : string) : bool :=
  match s with
  | EmptyString => false
  | String _ _ => true
  end.

(** [x || undefined] for a string [x]. *)
Definition or_undefined (s : string) : option string :=
  if truthy s then Some s else None.

(** [x || d] for [x : string | undefined] and a string default [d]. *)
Definition or_default (x : option string) (d : string) : string :=
  match x with
  | Some s => if truthy s then s else d
  | None => d
  end.

(** [String.prototype.startsWith]. *)
Definition startsWith (s p : string) : bool := String.prefix p s.

(** ** Requests, as axios sees them *)

Inductive verb : Set := GET | POST | PUT | PATCH | DELETE.

Record request (D : Type) : Type := mkRequest {
  method  : verb;
  url     : string;
  params  : list (string * string);
  data    : option D;
  headers : gmap string string
}.
Arguments mkRequest {D}.
Arguments method {D}.
Arguments url {D}.
Arguments params {D}.
Arguments data {D}.
Arguments headers {D}.

(** ** The browser state the client touches *)

Record browser : Type := mkBrowser {
  localStorage : gmap string string;
  location_href : string
}.

Definition getItem (k : string) (b : browser) : option string :=
  localStorage b !! k.

Definition removeItem (k : string) (b : browser) : browser :=
  {| localStorage := delete k (localStorage b);
     location_href := location_href b |}.

Definition set_location (h : string) (b : browser) : browser :=
  {| localStorage := localStorage b; location_href := h |}.

(** ** [api/client.ts] *)

Module Client.

Definition default_base : string := "/api/admin".

(** First copy: [baseURL: import.meta.env.VITE_API_URL || '/api/admin']. *)
Definition baseURL_A (VITE_API_URL : option string) : string :=
  or_default VITE_API_URL default_base.

(** Second copy: the same default, then a scheme is prepended to a
    value that is neither the default nor already starting with [http]. *)
Definition baseURL_B (VITE_API_URL : option string) : string :=
  let apiUrl := or_default VITE_API_URL default_base in
  if negb (String.eqb apiUrl default_base) && negb (startsWith apiUrl "http")
  then "https://" ++ apiUrl
  else apiUrl.

(** The request interceptor; both copies have the same text. *)
Definition requestInterceptor {D} (b : browser) (config : request D)
  : request D :=
  match getItem "admin_token" b with
  | Some token =>
      if truthy token
      then {| method := method config; url := url config;
              params := params config; data := data config;
              headers := <["Authorization" := "Bearer " ++ token]>
                           (headers config) |}
      else config
  | None => config
  end.

(** What reaches the response interceptor's rejection handler:
    [error.response] may be missing. *)
Record response : Type := mkResponse { status : Z }.
Record error : Type := mkError { err_response : option response;
                                 err_message : string }.

Inductive promise (A E : Type) : Type :=
| Resolved (a : A)
| Rejected (e : E).
Arguments Resolved {A E}.
Arguments Rejected {A E}.

(** [error.response?.status === 401] *)
Definition is_unauthorized (e : error) : bool :=
  match err_response e with
  | Some r => Z.eqb (status r) 401
  | None => false
  end.

(** The response interceptor's rejection handler; both copies have the
    same text. *)
Definition responseErrorInterceptor {A} (e : error) (b : browser)
  : browser * promise A error :=
  let b' := if is_unauthorized e
            then set_location "/login" (removeItem "admin_token" b)
            else b in
  (b', Rejected e).

(** The fulfilment handler is the identity. *)
Definition responseInterceptor {A} (r : A) : A := r.

End Client.

(** ** The API modules *)

(** [apiClient.get], [apiClient.post], [apiClient.patch]: the config each
    one passes on, with the headers [axios.create] was given.  The headers
    axios adds by itself are merged in by [merge_library_headers]. *)
Module apiClient.

Definition instance_headers : gmap string string :=
  {[ "Content-Type" := "application/json" ]}.

Definition get {D} (u : string) (ps : list (string * string)) : request D :=
  {| method := GET; url := u; params := ps; data := None;
     headers := instance_headers |}.

Definition post {D} (u : string) (d : D) : request D :=
  {| method := POST; url := u; params := []; data := Some d;
     headers := instance_headers |}.

Definition patch {D} (u : string) (d : D) : request D :=
  {| method := PATCH; url := u; params := []; data := Some d;
     headers := instance_headers |}.

End apiClient.

(** Before the request interceptors run, axios merges its own default
    headers (such as [Accept]) into the config; a header of the config
    takes precedence over a default of the same name.  The defaults
    belong to the library and are a parameter here. *)
Definition merge_library_headers {D} (library_defaults : gmap string string)
    (config : request D) : request D :=
  {| method := method config; url := url config; params := params config;
     data := data config;
     headers := headers config ∪ library_defaults |}.

(** [x ? { k: x } : undefined] for an optional string argument [x]. *)
Definition param_if_truthy (k : string) (x : option string)
  : list (string * string) :=
  match x with
  | Some s => if truthy s then [(k, s)] else []
  | None => []
  end.

(** [api/categories.ts] *)
Module categoriesApi.

Definition list {D} (parentId : option string) : request D :=
  apiClient.get "/categories" (param_if_truthy "parent_id" parentId).

Definition create {D} (d : D) : request D :=
  apiClient.post "/categories" d.

Definition update {D} (id : string) (d : D) : request D :=
  apiClient.patch ("/categories/" ++ id) d.

End categoriesApi.

(** [api/products.ts] *)
Module productsApi.

Definition list {D} (categoryId : option string) : request D :=
  apiClient.get "/products" (param_if_truthy "category_id" categoryId).

Definition create {D} (d : D) : request D :=
  apiClient.post "/products" d.

Definition update {D} (id : string) (d : D) : request D :=
  apiClient.patch ("/products/" ++ id) d.

Definition listVariants {D} (productId : string) : request D :=
  apiClient.get ("/products/" ++ productId ++ "/variants") [].

Definition createVariant {D} (productId : string) (d : D) : request D :=
  apiClient.post ("/products/" ++ productId ++ "/variants") d.

Definition updateVariant {D} (variantId : string) (d : D) : request D :=
  apiClient.patch ("/products/variants/" ++ variantId) d.

End productsApi.

(** [api/retailers.ts] *)
Module retailersApi.

Definition list {D} : request D :=
  apiClient.get "/retailers" [].

Definition create {D} (d : D) : request D :=
  apiClient.post "/retailers" d.

Definition update {D} (id : string) (d : D) : request D :=
  apiClient.patch ("/retailers/" ++ id) d.

Definition listProducts {D} (retailerId : string) : request D :=
  apiClient.get ("/retailers/" ++ retailerId ++ "/products") [].

Definition addProduct {D} (retailerId : string) (d : D) : request D :=
  apiClient.post ("/retailers/" ++ retailerId ++ "/products") d.

Definition updateProduct {D} (mappingId : string) (d : D) : request D :=
  apiClient.patch ("/retailer-products/" ++ mappingId) d.

End retailersApi.

(** [api/orders.ts] *)
Module ordersApi.

(** [params] is passed through as given: each of the three optional
    filters appears when it is defined. *)
Record list_params : Type := mkListParams {
  lp_status : option string;
  lp_retailer_id : option string;
  lp_farmer_id : option string
}.

Definition present (k : string) (x : option string)
  : Datatypes.list (string * string) :=
  match x with Some s => [(k, s)] | None => [] end.

Definition list {D} (ps : option list_params) : request D :=
  apiClient.get "/orders"
    match ps with
    | Some p => present "status" (lp_status p)
                ++ present "retailer_id" (lp_retailer_id p)
                ++ present "farmer_id" (lp_farmer_id p)
    | None => []
    end.

Definition get {D} (id : string) : request D :=
  apiClient.get ("/orders/" ++ id) [].

End ordersApi.

(** Every call the four API modules offer, with the arguments that reach
    the URL.  [issue] builds the request of a call; the payload of a
    [POST] or [PATCH] is kept abstract (type [D]). *)
Inductive api_call (D : Type) : Type :=
| CategoriesList (parentId : option string)
| CategoriesCreate (d : D)
| CategoriesUpdate (id : string) (d : D)
| ProductsList (categoryId : option string)
| ProductsCreate (d : D)
| ProductsUpdate (id : string) (d : D)
| ProductsListVariants (productId : string)
| ProductsCreateVariant (productId : string) (d : D)
| ProductsUpdateVariant (variantId : string) (d : D)
| RetailersList
| RetailersCreate (d : D)
| RetailersUpdate (id : string) (d : D)
| RetailersListProducts (retailerId : string)
| RetailersAddProduct (retailerId : string) (d : D)
| RetailersUpdateProduct (mappingId : string) (d : D)
| OrdersList (ps : option ordersApi.list_params)
| OrdersGet (id : string).
Arguments CategoriesList {D}.
Arguments CategoriesCreate {D}.
Arguments CategoriesUpdate {D}.
Arguments ProductsList {D}.
Arguments ProductsCreate {D}.
Arguments ProductsUpdate {D}.
Arguments ProductsListVariants {D}.
Arguments ProductsCreateVariant {D}.
Arguments ProductsUpdateVariant {D}.
Arguments RetailersList {D}.
Arguments RetailersCreate {D}.
Arguments RetailersUpdate {D}.
Arguments RetailersListProducts {D}.
Arguments RetailersAddProduct {D}.
Arguments RetailersUpdateProduct {D}.
Arguments OrdersList {D}.
Arguments OrdersGet {D}.

Definition issue {D} (c : api_call D) : request D :=
  match c with
  | CategoriesList p => categoriesApi.list p
  | CategoriesCreate d => categoriesApi.create d
  | CategoriesUpdate id d => categoriesApi.update id d
  | ProductsList c => productsApi.list c
  | ProductsCreate d => productsApi.create d
  | ProductsUpdate id d => productsApi.update id d
  | ProductsListVariants p => productsApi.listVariants p
  | ProductsCreateVariant p d => productsApi.createVariant p d
  | ProductsUpdateVariant v d => productsApi.updateVariant v d
  | RetailersList => retailersApi.list
  | RetailersCreate d => retailersApi.create d
  | RetailersUpdate id d => retailersApi.update id d
  | RetailersListProducts r => retailersApi.listProducts r
  | RetailersAddProduct r d => retailersApi.addProduct r d
  | RetailersUpdateProduct m d => retailersApi.updateProduct m d
  | OrdersList ps => ordersApi.list ps
  | OrdersGet id => ordersApi.get id
  end.

(** *** Resource paths

    A resource path is a sequence of segments, each a literal or the path
    parameter [{id}].  [instantiate t id] substitutes [id] for the
    parameter. *)
Inductive segment : Type := Lit (s : string) | Param.

Definition resource_path : Type := list segment.

Fixpoint instantiate (t : resource_path) (id : string) : string :=
  match t with
  | [] => ""
  | Lit s :: t' => "/" ++ s ++ instantiate t' id
  | Param :: t' => "/" ++ id ++ instantiate t' id
  end.

(** A URL targets a resource path when it is that path with some value
    substituted for the parameter. *)
Definition targets (u : string) (t : resource_path) : Prop :=
  ∃ id : string, u = instantiate t id.

(** The nine resource paths the interface description lists. *)
Definition listed_paths : list resource_path :=
  [ [Lit "categories"];
    [Lit "products"];
    [Lit "products"; Param; Lit "variants"];
    [Lit "products"; Lit "variants"; Param];
    [Lit "retailers"];
    [Lit "retailers"; Param; Lit "products"];
    [Lit "retailer-products"; Param];
    [Lit "orders"];
    [Lit "orders"; Param] ].

(** The three item paths the update calls use in addition. *)
Definition item_paths : list resource_path :=
  [ [Lit "categories"; Param];
    [Lit "products"; Param];
    [Lit "retailers"; Param] ].

Definition allowed_verb (v : verb) : bool :=
  match v with
  | GET | POST | PATCH => true
  | PUT | DELETE => false
  end.

(** The resource path each call is written against, and the value it
    substitutes. *)
Definition path_of {D} (c : api_call D) : resource_path :=
  match c with
  | CategoriesList _ | CategoriesCreate _ => [Lit "categories"]
  | CategoriesUpdate _ _ => [Lit "categories"; Param]
  | ProductsList _ | ProductsCreate _ => [Lit "products"]
  | ProductsUpdate _ _ => [Lit "products"; Param]
  | ProductsListVariants _ | ProductsCreateVariant _ _ =>
      [Lit "products"; Param; Lit "variants"]
  | ProductsUpdateVariant _ _ => [Lit "products"; Lit "variants"; Param]
  | RetailersList | RetailersCreate _ => [Lit "retailers"]
  | RetailersUpdate _ _ => [Lit "retailers"; Param]
  | RetailersListProducts _ | RetailersAddProduct _ _ =>
      [Lit "retailers"; Param; Lit "products"]
  | RetailersUpdateProduct _ _ => [Lit "retailer-products"; Param]
  | OrdersList _ => [Lit "orders"]
  | OrdersGet _ => [Lit "orders"; Param]
  end.

Definition path_arg {D} (c : api_call D) : string :=
  match c with
  | CategoriesUpdate id _ | ProductsUpdate id _ | ProductsListVariants id
  | ProductsCreateVariant id _ | ProductsUpdateVariant id _
  | RetailersUpdate id _ | RetailersListProducts id
  | RetailersAddProduct id _ | RetailersUpdateProduct id _
  | OrdersGet id => id
  | _ => ""
  end.

(** ** [App.tsx]: the query client *)

Module App.

Record query_options : Type := mkQueryOptions {
  staleTime : Z;
  retry : nat
}.

(** [new QueryClient({ defaultOptions: { queries: { staleTime: 30000,
    retry: 1 } } })] *)
Definition queryClient_defaultOptions_queries : query_options :=
  {| staleTime := 30000; retry := 1 |}.

(** The query library is a dependency, not part of the repository.  Its
    retry loop is written here as the library documents it: a failed
    fetch is tried again while fewer than [retry] retries have been
    made.  [fetch n] is the outcome of the [n]-th attempt ([None] is a
    failure); the result carries the number of retries performed. *)
Fixpoint run_query {R} (retries_left : nat) (attempt : nat)
    (fetch : nat -> option R) : option R * nat :=
  match fetch attempt with
  | Some r => (Some r, attempt)
  | None =>
      match retries_left with
      | O => (None, attempt)
      | S k => run_query k (S attempt) fetch
      end
  end.

(** No [useQuery] call in the pages overrides [retry], so every query
    runs with the default. *)
Definition useQuery {R} (fetch : nat -> option R) : option R * nat :=
  run_query (retry queryClient_defaultOptions_queries) 0 fetch.

Definition retries_performed {R} (fetch : nat -> option R) : nat :=
  snd (useQuery fetch).

End App.

(** ** Query keys and the query cache *)

Inductive kelem : Type := KStr (s : string) | KUndefined.

Global Instance kelem_eq_dec : EqDecision kelem.
Proof. solve_decision. Defined.

Definition queryKey : Type := list kelem.

(** [x?.id] placed in a key: [undefined] when [x] is [null]. *)
Definition kopt (o : option string) : kelem :=
  match o with Some s => KStr s | None => KUndefined end.

(** The library matches a filter key against a query's key by prefix. *)
Fixpoint partialMatchKey (qk filter : queryKey) : bool :=
  match filter, qk with
  | [], _ => true
  | f :: filter', k :: qk' => bool_decide (k = f) && partialMatchKey qk' filter'
  | _ :: _, [] => false
  end.

Record query_entry : Type := mkEntry {
  entry_key : queryKey;
  isInvalidated : bool
}.

Definition invalidate (e : query_entry) : query_entry :=
  {| entry_key := entry_key e; isInvalidated := true |}.

(** [queryClient.invalidateQueries({ queryKey })] *)
Definition invalidateQueries (k : queryKey) (cache : list query_entry)
  : list query_entry :=
  map (fun e => if partialMatchKey (entry_key e) k then invalidate e else e)
      cache.

(** Every [useQuery] key of the application. *)
Inductive app_query : Type :=
| QCategories
| QProducts
| QVariants (productId : option string)
| QRetailers
| QAllVariants
| QRetailerProducts (retailerId : option string)
| QOrders (statusFilter : string)
| QOrder (id : option string).

Global Instance app_query_eq_dec : EqDecision app_query.
Proof. solve_decision. Defined.

Definition key_of (q : app_query) : queryKey :=
  match q with
  | QCategories => [KStr "categories"]
  | QProducts => [KStr "products"]
  | QVariants p => [KStr "variants"; kopt p]
  | QRetailers => [KStr "retailers"]
  | QAllVariants => [KStr "all-variants"]
  | QRetailerProducts r => [KStr "retailer-products"; kopt r]
  | QOrders s => [KStr "orders"; KStr s]
  | QOrder i => [KStr "order"; kopt i]
  end.

(** ** [types/index.ts] *)

(** JavaScript numbers are kept abstract: the pages only parse them from
    form fields and print them. *)
Class JSNumber : Type := {
  num : Type;
  parseFloat : string -> num;
  parseInt : string -> num;
  num_toString : num -> string
}.

Record ProductCategory : Type := mkProductCategory {
  pc_id : string;
  pc_name : string;
  pc_description : option string;
  pc_parent_id : option string;
  pc_created_at : string
}.

Global Instance ProductCategory_eq_dec : EqDecision ProductCategory.
Proof. solve_decision. Defined.

Record Product : Type := mkProduct {
  p_id : string;
  p_category_id : option string;
  p_name : string;
  p_description : option string;
  p_manufacturer : option string;
  p_is_active : bool;
  p_created_at : string
}.

Record ProductVariant `{JSNumber} : Type := mkProductVariant {
  pv_id : string;
  pv_product_id : string;
  pv_sku : string;
  pv_name : option string;
  pv_unit_size : option string;
  pv_unit_type : option string;
  pv_base_price : option num;
  pv_is_active : bool;
  pv_created_at : string
}.

Record Retailer `{JSNumber} : Type := mkRetailer {
  r_id : string;
  r_name : string;
  r_phone : option string;
  r_email : option string;
  r_address : option string;
  r_location_lat : option num;
  r_location_lng : option num;
  r_is_active : bool;
  r_created_at : string
}.

Record RetailerProduct `{JSNumber} : Type := mkRetailerProduct {
  rp_id : string;
  rp_retailer_id : string;
  rp_product_variant_id : string;
  rp_price : num;
  rp_stock_quantity : num;
  rp_is_available : bool
}.

(** ** [pages/categories/CategoriesPage.tsx] *)

Module CategoriesPage.

Record form : Type := mkForm {
  name : string;
  description : string;
  parent_id : string
}.

Record state : Type := mkState {
  modalOpen : bool;
  editing : option ProductCategory;
  formData : form;
  categories : list ProductCategory   (* the list query's data *)
}.

Definition initial : state :=
  {| modalOpen := false; editing := None;
     formData := {| name := ""; description := ""; parent_id := "" |};
     categories := [] |}.

(** The key of the page's list query. *)
Definition listQuery : app_query := QCategories.

Definition openCreate (st : state) : state :=
  {| modalOpen := true; editing := None;
     formData := {| name := ""; description := ""; parent_id := "" |};
     categories := categories st |}.

Definition openEdit (category : ProductCategory) (st : state) : state :=
  {| modalOpen := true; editing := Some category;
     formData := {| name := pc_name category;
                    description := or_default (pc_description category) "";
                    parent_id := or_default (pc_parent_id category) "" |};
     categories := categories st |}.

Definition closeModal (st : state) : state :=
  {| modalOpen := false; editing := None;
     formData := formData st; categories := categories st |}.

Definition setFormData (f : form) (st : state) : state :=
  {| modalOpen := modalOpen st; editing := editing st;
     formData := f; categories := categories st |}.

Definition setCategories (cs : list ProductCategory) (st : state) : state :=
  {| modalOpen := modalOpen st; editing := editing st;
     formData := formData st; categories := cs |}.

(** The payload [handleSubmit] builds. *)
Record payload : Type := mkPayload {
  data_name : string;
  data_description : option string;
  data_parent_id : option string
}.

Definition submitData (f : form) : payload :=
  {| data_name := name f;
     data_description := or_undefined (description f);
     data_parent_id := or_undefined (parent_id f) |}.

(** [handleSubmit]: the request the chosen mutation sends. *)
Definition handleSubmit (st : state) : request payload :=
  match editing st with
  | Some e => categoriesApi.update (pc_id e) (submitData (formData st))
  | None => categoriesApi.create (submitData (formData st))
  end.

(** [createMutation.onSuccess] and [updateMutation.onSuccess]. *)
Definition createMutation_onSuccess (st : state) (cache : list query_entry)
  : state * list query_entry :=
  (closeModal st, invalidateQueries [KStr "categories"] cache).

Definition updateMutation_onSuccess (st : state) (cache : list query_entry)
  : state * list query_entry :=
  (closeModal st, invalidateQueries [KStr "categories"] cache).

(** The [<option>]s of the parent select: value and label.
    [c.id !== editing?.id] compares a string with [string | undefined]. *)
Definition not_editing (st : state) (c : ProductCategory) : bool :=
  match editing st with
  | Some e => negb (String.eqb (pc_id c) (pc_id e))
  | None => true
  end.

Definition parentOptions (st : state) : list (string * string) :=
  ("", "None")
  :: map (fun c => (pc_id c, pc_name c))
         (filter (fun c => not_editing st c = true) (categories st)).

(** What the user and the network can do to the page. *)
Inductive event : Type :=
| OpenCreate
| OpenEdit (category : ProductCategory)
| CloseModal
| ChangeName (s : string)
| ChangeDescription (s : string)
| SelectParent (v : string)
| Fetched (cs : list ProductCategory).

(** One event.  The Edit button exists only on a row of the fetched
    list, and the select can only report the value of one of its
    options; an event that cannot occur yields [None]. *)
Definition step (st : state) (ev : event) : option state :=
  match ev with
  | OpenCreate => Some (openCreate st)
  | OpenEdit c =>
      if bool_decide (c ∈ categories st) then Some (openEdit c st) else None
  | CloseModal => Some (closeModal st)
  | ChangeName s =>
      Some (setFormData {| name := s;
                           description := description (formData st);
                           parent_id := parent_id (formData st) |} st)
  | ChangeDescription s =>
      Some (setFormData {| name := name (formData st);
                           description := s;
                           parent_id := parent_id (formData st) |} st)
  | SelectParent v =>
      if bool_decide (v ∈ map fst (parentOptions st))
      then Some (setFormData {| name := name (formData st);
                                description := description (formData st);
                                parent_id := v |} st)
      else None
  | Fetched cs => Some (setCategories cs st)
  end.

Fixpoint run (st : state) (evs : list event) : option state :=
  match evs with
  | [] => Some st
  | ev :: evs' =>
      match step st ev with
      | Some st' => run st' evs'
      | None => None
      end
  end.

(** A fetched category that names itself as its parent. *)
Definition self_parented (c : ProductCategory) : Prop :=
  pc_parent_id c = Some (pc_id c).

End CategoriesPage.

(** ** [pages/retailers/RetailersPage.tsx] *)

Module RetailersPage.

Record form : Type := mkForm {
  name : string;
  phone : string;
  email : string;
  address : string;
  location_lat : string;
  location_lng : string;
  is_active : bool
}.

Record state `{JSNumber} : Type := mkState {
  modalOpen : bool;
  editing : option Retailer;
  formData : form
}.

Definition listQuery : app_query := QRetailers.

Definition closeModal `{JSNumber} (st : state) : state :=
  {| modalOpen := false; editing := None; formData := formData st |}.

(** The payload [handleSubmit] builds. *)
Record payload `{JSNumber} : Type := mkPayload {
  data_name : string;
  data_phone : option string;
  data_email : option string;
  data_address : option string;
  data_location_lat : option num;
  data_location_lng : option num;
  data_is_active : bool
}.

(** [s ? parseFloat(s) : undefined] *)
Definition parse_if_truthy `{JSNumber} (s : string) : option num :=
  if truthy s then Some (parseFloat s) else None.

Definition submitData `{JSNumber} (f : form) : payload :=
  {| data_name := name f;
     data_phone := or_undefined (phone f);
     data_email := or_undefined (email f);
     data_address := or_undefined (address f);
     data_location_lat := parse_if_truthy (location_lat f);
     data_location_lng := parse_if_truthy (location_lng f);
     data_is_active := is_active f |}.

Definition handleSubmit `{JSNumber} (st : state) : request payload :=
  match editing st with
  | Some e => retailersApi.update (r_id e) (submitData (formData st))
  | None => retailersApi.create (submitData (formData st))
  end.

Definition createMutation_onSuccess `{JSNumber} (st : state)
    (cache : list query_entry) : state * list query_entry :=
  (closeModal st, invalidateQueries [KStr "retailers"] cache).

Definition updateMutation_onSuccess `{JSNumber} (st : state)
    (cache : list query_entry) : state * list query_entry :=
  (closeModal st, invalidateQueries [KStr "retailers"] cache).

End RetailersPage.

(** ** [pages/products/ProductsPage.tsx] *)

Module ProductsPage.

(** The two form states play no part in the success handlers and are
    left out. *)
Record state `{JSNumber} : Type := mkState {
  productModalOpen : bool;
  variantModalOpen : bool;
  editingProduct : option Product;
  selectedProduct : option Product;
  editingVariant : option ProductVariant
}.

Definition productsQuery : app_query := QProducts.

(** [queryKey: ['variants', selectedProduct?.id]] *)
Definition variantsQuery `{JSNumber} (st : state) : app_query :=
  QVariants (p_id <$> selectedProduct st).

Definition setProductModalOpen `{JSNumber} (b : bool) (st : state) : state :=
  {| productModalOpen := b; variantModalOpen := variantModalOpen st;
     editingProduct := editingProduct st;
     selectedProduct := selectedProduct st;
     editingVariant := editingVariant st |}.

Definition setVariantModalOpen `{JSNumber} (b : bool) (st : state) : state :=
  {| productModalOpen := productModalOpen st; variantModalOpen := b;
     editingProduct := editingProduct st;
     selectedProduct := selectedProduct st;
     editingVariant := editingVariant st |}.

Definition createProductMutation_onSuccess `{JSNumber} (st : state)
    (cache : list query_entry) : state * list query_entry :=
  (setProductModalOpen false st, invalidateQueries [KStr "products"] cache).

Definition updateProductMutation_onSuccess `{JSNumber} (st : state)
    (cache : list query_entry) : state * list query_entry :=
  (setProductModalOpen false st, invalidateQueries [KStr "products"] cache).

Definition createVariantMutation_onSuccess `{JSNumber} (st : state)
    (cache : list query_entry) : state * list query_entry :=
  (setVariantModalOpen false st,
   invalidateQueries
     [KStr "variants"; kopt (p_id <$> selectedProduct st)] cache).

Definition updateVariantMutation_onSuccess `{JSNumber} (st : state)
    (cache : list query_entry) : state * list query_entry :=
  (setVariantModalOpen false st,
   invalidateQueries
     [KStr "variants"; kopt (p_id <$> selectedProduct st)] cache).

End ProductsPage.

(** ** [pages/retailer-products/RetailerProductsPage.tsx] *)

Module RetailerProductsPage.

Record state `{JSNumber} : Type := mkState {
  selectedRetailer : option Retailer;
  modalOpen : bool;
  editing : option RetailerProduct
}.

(** [queryKey: ['retailer-products', selectedRetailer?.id]] *)
Definition mappingsQuery `{JSNumber} (st : state) : app_query :=
  QRetailerProducts (r_id <$> selectedRetailer st).

Definition closeModal `{JSNumber} (st : state) : state :=
  {| selectedRetailer := selectedRetailer st;
     modalOpen := false; editing := None |}.

Definition addProductMutation_onSuccess `{JSNumber} (st : state)
    (cache : list query_entry) : state * list query_entry :=
  (closeModal st,
   invalidateQueries
     [KStr "retailer-products"; kopt (r_id <$> selectedRetailer st)] cache).

Definition updateProductMutation_onSuccess `{JSNumber} (st : state)
    (cache : list query_entry) : state * list query_entry :=
  (closeModal st,
   invalidateQueries
     [KStr "retailer-products"; kopt (r_id <$> selectedRetailer st)] cache).

End RetailerProductsPage.

(** ** The mutations of the four pages, side by side *)

Record pages `{JSNumber} : Type := mkPages {
  categoriesPage : CategoriesPage.state;
  productsPage : ProductsPage.state;
  retailersPage : RetailersPage.state;
  retailerProductsPage : RetailerProductsPage.state
}.

Inductive mutation : Type :=
| CategoryCreate | CategoryUpdate
| ProductCreate | ProductUpdate
| VariantCreate | VariantUpdate
| RetailerCreate | RetailerUpdate
| MappingAdd | MappingUpdate.

Definition on_categories `{JSNumber}
    (h : CategoriesPage.state -> list query_entry
         -> CategoriesPage.state * list query_entry)
    (p : pages) (cache : list query_entry) : pages * list query_entry :=
  let '(s, c) := h (categoriesPage p) cache in
  ({| categoriesPage := s; productsPage := productsPage p;
      retailersPage := retailersPage p;
      retailerProductsPage := retailerProductsPage p |}, c).

Definition on_products `{JSNumber}
    (h : ProductsPage.state -> list query_entry
         -> ProductsPage.state * list query_entry)
    (p : pages) (cache : list query_entry) : pages * list query_entry :=
  let '(s, c) := h (productsPage p) cache in
  ({| categoriesPage := categoriesPage p; productsPage := s;
      retailersPage := retailersPage p;
      retailerProductsPage := retailerProductsPage p |}, c).

Definition on_retailers `{JSNumber}
    (h : RetailersPage.state -> list query_entry
         -> RetailersPage.state * list query_entry)
    (p : pages) (cache : list query_entry) : pages * list query_entry :=
  let '(s, c) := h (retailersPage p) cache in
  ({| categoriesPage := categoriesPage p; productsPage := productsPage p;
      retailersPage := s;
      retailerProductsPage := retailerProductsPage p |}, c).

Definition on_retailerProducts `{JSNumber}
    (h : RetailerProductsPage.state -> list query_entry
         -> RetailerProductsPage.state * list query_entry)
    (p : pages) (cache : list query_entry) : pages * list query_entry :=
  let '(s, c) := h (retailerProductsPage p) cache in
  ({| categoriesPage := categoriesPage p; productsPage := productsPage p;
      retailersPage := retailersPage p;
      retailerProductsPage := s |}, c).

(** The success handler of each mutation. *)
Definition onSuccess `{JSNumber} (m : mutation)
  : pages -> list query_entry -> pages * list query_entry :=
  match m with
  | CategoryCreate => on_categories CategoriesPage.createMutation_onSuccess
  | CategoryUpdate => on_categories CategoriesPage.updateMutation_onSuccess
  | ProductCreate => on_products ProductsPage.createProductMutation_onSuccess
  | ProductUpdate => on_products ProductsPage.updateProductMutation_onSuccess
  | VariantCreate => on_products ProductsPage.createVariantMutation_onSuccess
  | VariantUpdate => on_products ProductsPage.updateVariantMutation_onSuccess
  | RetailerCreate => on_retailers RetailersPage.createMutation_onSuccess
  | RetailerUpdate => on_retailers RetailersPage.updateMutation_onSuccess
  | MappingAdd =>
      on_retailerProducts RetailerProductsPage.addProductMutation_onSuccess
  | MappingUpdate =>
      on_retailerProducts RetailerProductsPage.updateProductMutation_onSuccess
  end.

(** ** Order status badges *)

(** [pages/orders/OrdersPage.tsx] *)
Module OrdersPage.

Definition getStatusClass (status : string) : string :=
  if String.eqb status "pending" then "pending"
  else if String.eqb status "accepted" || String.eqb status "fulfilled"
  then "active"
  else if String.eqb status "rejected" || String.eqb status "cancelled"
  then "inactive"
  else "".

End OrdersPage.

(** [pages/orders/OrderDetailPage.tsx] *)
Module OrderDetailPage.

(** The class interpolated after [status-badge] in the status span. *)
Definition statusClass (status : string) : string :=
  if String.eqb status "pending" then "pending"
  else if String.eqb status "fulfilled" then "active"
  else "inactive".

End OrderDetailPage.

Definition known_statuses : list string :=
  ["pending"; "accepted"; "fulfilled"; "rejected"; "cancelled"].

(** ** [components/common/DataTable.tsx] *)

(** The values reading a property of a row can give: what the backend
    sent, and the built-in functions a row inherits. *)
Inductive value `{JSNumber} : Type :=
| VUndefined
| VNull
| VBool (b : bool)
| VNum (n : num)
| VStr (s : string)
| VArray (l : list value)
| VObject (fs : list (string * value))
| VFunction (name : string).

(** JavaScript's [String(v)]. *)
Fixpoint js_String `{JSNumber} (v : value) : string :=
  match v with
  | VUndefined => "undefined"
  | VNull => "null"
  | VBool true => "true"
  | VBool false => "false"
  | VNum n => num_toString n
  | VStr s => s
  | VArray l =>
      (fix join (l : list value) : string :=
         match l with
         | [] => ""
         | x :: l' =>
             let sx := match x with
                       | VUndefined | VNull => ""
                       | _ => js_String x
                       end in
             match l' with
             | [] => sx
             | _ :: _ => sx ++ "," ++ join l'
             end
         end) l
  | VObject _ => "[object Object]"
  | VFunction name => "function " ++ name ++ "() { [native code] }"
  end.

(** [a ?? b] *)
Definition nullish `{JSNumber} (a b : value) : value :=
  match a with
  | VUndefined | VNull => b
  | _ => a
  end.

(** The methods every plain object inherits from [Object.prototype], and
    all the property names it inherits. *)
Definition inherited_methods : list string :=
  ["toString"; "toLocaleString"; "valueOf"; "hasOwnProperty";
   "isPrototypeOf"; "propertyIsEnumerable"; "__defineGetter__";
   "__defineSetter__"; "__lookupGetter__"; "__lookupSetter__"].

Definition inherited_names : list string :=
  "constructor" :: "__proto__" :: inherited_methods.

(** What reading an inherited property gives: the function [Object] for
    [constructor], the prototype object for [__proto__], the method for a
    method name, and [undefined] for any other name. *)
Definition inherited `{JSNumber} (k : string) : value :=
  if String.eqb k "constructor" then VFunction "Object"
  else if String.eqb k "__proto__" then VObject []
  else if bool_decide (k ∈ inherited_methods) then VFunction k
  else VUndefined.

(** A row: [T extends { id: string }], a plain object decoded from the
    response.  Reading a property the row does not have itself falls back
    to the inherited ones. *)
Record item `{JSNumber} : Type := mkItem {
  id : string;
  fields : gmap string value
}.

Definition get_field `{JSNumber} (it : item) (k : string) : value :=
  if String.eqb k "id" then VStr (id it)
  else match fields it !! k with
       | Some v => v
       | None => inherited k
       end.

Record Column `{JSNumber} (N : Type) : Type := mkColumn {
  key : string;
  header : string;
  render : option (item -> N)
}.
Arguments mkColumn {_ N}.
Arguments key {_ N}.
Arguments header {_ N}.
Arguments render {_ N}.

Record DataTableProps `{JSNumber} (N A : Type) : Type := mkProps {
  columns : list (Column N);
  data_rows : list item;
  loading : option bool;
  onRowClick : option (item -> A)
}.
Arguments mkProps {_ N A}.
Arguments columns {_ N A}.
Arguments data_rows {_ N A}.
Arguments loading {_ N A}.
Arguments onRowClick {_ N A}.

(** What is rendered. *)
Inductive cell (N : Type) : Type :=
| Node (n : N)
| Text (s : string).
Arguments Node {N}.
Arguments Text {N}.

Record th : Type := mkTh { th_key : string; th_text : string }.

Record td (N : Type) : Type := mkTd { td_key : string; td_content : cell N }.
Arguments mkTd {N}.
Arguments td_key {N}.
Arguments td_content {N}.

Inductive tr (N : Type) : Type :=
| Row (row_key : string) (cursor : string) (cells : list (td N))
| NoData (colSpan : nat) (text : string).
Arguments Row {N}.
Arguments NoData {N}.

Inductive rendered (N : Type) : Type :=
| LoadingDiv (text : string)
| TableDiv (thead : list th) (tbody : list (tr N)).
Arguments LoadingDiv {N}.
Arguments TableDiv {N}.

(** One [<td>]. *)
Definition render_cell `{JSNumber} {N} (it : item) (col : Column N) : td N :=
  {| td_key := key col;
     td_content :=
       match render col with
       | Some r => Node (r it)
       | None => Text (js_String (nullish (get_field it (key col)) (VStr "")))
       end |}.

(** One [<tr>] of [data.map]. *)
Definition render_row `{JSNumber} {N A} (p : DataTableProps N A) (it : item)
  : tr N :=
  Row (id it)
      (match onRowClick p with Some _ => "pointer" | None => "default" end)
      (map (render_cell it) (columns p)).

Definition DataTable `{JSNumber} {N A} (p : DataTableProps N A) : rendered N :=
  match loading p with
  | Some true => LoadingDiv "Loading..."
  | _ =>
      TableDiv
        (map (fun col => {| th_key := key col; th_text := header col |})
             (columns p))
        (map (render_row p) (data_rows p)
         ++ (if Nat.eqb (length (data_rows p)) 0
             then [NoData (length (columns p)) "No data found"]
             else []))
  end.

(** The body rows of a rendering (none while the placeholder shows). *)
Definition body_of {N} (r : rendered N) : list (tr N) :=
  match r with
  | LoadingDiv _ => []
  | TableDiv _ b => b
  end.

Definition is_data_row {N} (r : tr N) : bool :=
  match r with Row _ _ _ => true | NoData _ _ => false end.

(** ** An instance of the numbers, for running the definitions

    Integers with [NaN] ([None]); [parseFloat] and [parseInt] read a
    decimal integer literal.  It is used only to evaluate the pages on
    sample inputs. *)
Definition read_integer (s : string) : option Z :=
  Z.of_int <$> NilZero.int_of_string s.

Definition show_integer (n : option Z) : string :=
  match n with
  | Some z => NilZero.string_of_int (Z.to_int z)
  | None => "NaN"
  end.

Definition integer_numbers : JSNumber :=
  {| num := option Z;
     parseFloat := read_integer;
     parseInt := read_integer;
     num_toString := show_integer |}.

(** ** The properties under study, as predicates on the embedding *)

(** The base URL is the variable's value when it is set and non-empty. *)
Definition follows_env (baseURL : option string -> string) : Prop :=
  ∀ s : string, s ≠ "" → baseURL (Some s) = s.

(** With a stored token the header is [Bearer] and the stored value. *)
Definition bearer_for_every_stored_value : Prop :=
  ∀ (b : browser) (config : request unit) (token : string),
    getItem "admin_token" b = Some token →
    headers (Client.requestInterceptor b config) !! "Authorization"
    = Some ("Bearer " ++ token).

(** Every request targets one of the nine listed paths. *)
Definition only_listed_paths : Prop :=
  ∀ c : api_call unit, ∃ t, t ∈ listed_paths ∧ targets (url (issue c)) t.

(** The two badge mappings agree on a status. *)
Definition same_badge (status : string) : Prop :=
  OrdersPage.getStatusClass status = OrderDetailPage.statusClass status.

(** Sample data. *)
Definition stored_empty_token : browser :=
  {| localStorage := {[ "admin_token" := "" ]}; location_href := "/" |}.

Definition stored_token : browser :=
  {| localStorage := {[ "admin_token" := "t0k3n" ]}; location_href := "/" |}.

Definition plain_request : request unit :=
  apiClient.get "/categories" [].

Definition unauthorized_error : Client.error :=
  {| Client.err_response := Some {| Client.status := 401 |};
     Client.err_message := "Request failed with status code 401" |}.

Definition always_fails : nat -> option unit := fun _ => None.

(** The body rows of a table follow the data, and the [No data found]
    row appears exactly for empty data. *)
Definition rows_follow_data `{JSNumber} {N A} (p : DataTableProps N A)
  : Prop :=
  Forall2 (fun r it => ∃ cur cells, r = Row (id it) cur cells)
          (filter (fun r => is_data_row r = true) (body_of (DataTable p)))
          (data_rows p).

Definition empty_row_iff_no_data `{JSNumber} {N A} (p : DataTableProps N A)
  : Prop :=
  NoData (length (columns p)) "No data found" ∈ body_of (DataTable p)
  ↔ data_rows p = [].

(** The text of a cell without [render]: the string form of what reading
    the field gives, empty for [null] and [undefined]. *)
Definition shown `{JSNumber} (it : item) (k : string) : string :=
  match get_field it k with
  | VUndefined | VNull => ""
  | v => js_String v
  end.

(** No submission of the edit form carries the edited category's own id
    as [parent_id]. *)
Definition never_own_parent (evs : list CategoriesPage.event) : Prop :=
  ∀ st e d,
    CategoriesPage.run CategoriesPage.initial evs = Some st →
    CategoriesPage.editing st = Some e →
    data (CategoriesPage.handleSubmit st) = Some d →
    CategoriesPage.data_parent_id d ≠ Some (pc_id e).

(** While a category that is not its own parent in the fetched data is
    being edited, the form's parent is not that category. *)
Definition parent_differs (st : CategoriesPage.state) : Prop :=
  ∀ e, CategoriesPage.editing st = Some e →
       ¬ CategoriesPage.self_parented e →
       or_undefined (CategoriesPage.parent_id (CategoriesPage.formData st))
       ≠ Some (pc_id e).

(** A text field of a payload is absent for an empty form value and the
    form value otherwise; a numeric field likewise, parsed. *)
Definition text_rule (formValue : string) (sent : option string) : Prop :=
  (formValue = "" → sent = None) ∧ (formValue ≠ "" → sent = Some formValue).

Definition number_rule `{JSNumber} (formValue : string) (sent : option num)
  : Prop :=
  (formValue = "" → sent = None)
  ∧ (formValue ≠ "" → sent = Some (parseFloat formValue)).

(** More sample data. *)
Definition loading_table : DataTableProps (H:=integer_numbers) string unit :=
  {| columns := [ {| key := "name"; header := "Name"; render := None |} ];
     data_rows := [];
     loading := Some true;
     onRowClick := None |}.

Definition sample_row : item (H:=integer_numbers) :=
  {| id := "r1";
     fields := {[ "name" := VStr "Agro Store"; "phone" := VNull;
                  "stock" := VNum (H:=integer_numbers) (Some 12) ]} |}.

Definition sample_table : DataTableProps (H:=integer_numbers) string unit :=
  {| columns := [ {| key := "name"; header := "Name"; render := None |};
                  {| key := "phone"; header := "Phone"; render := None |};
                  {| key := "email"; header := "Email"; render := None |};
                  {| key := "stock"; header := "Stock"; render := None |};
                  {| key := "actions"; header := "Actions";
                     render := Some (fun it => "Edit " ++ id it) |} ];
     data_rows := [sample_row];
     loading := Some false;
     onRowClick := None |}.

Definition looped_category : ProductCategory :=
  {| pc_id := "a"; pc_name := "Feed"; pc_description := None;
     pc_parent_id := Some "a"; pc_created_at := "2024-01-01" |}.

Definition root_category : ProductCategory :=
  {| pc_id := "a"; pc_name := "Feed"; pc_description := None;
     pc_parent_id := None; pc_created_at := "2024-01-01" |}.

Definition child_category : ProductCategory :=
  {| pc_id := "b"; pc_name := "Minerals"; pc_description := Some "salts";
     pc_parent_id := Some "a"; pc_created_at := "2024-01-02" |}.

Definition looped_then_child : list CategoriesPage.event :=
  [CategoriesPage.Fetched [looped_category; child_category];
   CategoriesPage.OpenEdit looped_category;
   CategoriesPage.CloseModal;
   CategoriesPage.OpenEdit child_category;
   CategoriesPage.SelectParent ""].

Definition sample_retailer_state : RetailersPage.state (H:=integer_numbers) :=
  {| RetailersPage.modalOpen := true;
     RetailersPage.editing := None;
     RetailersPage.formData :=
       {| RetailersPage.name := "Agro Store";
          RetailersPage.phone := "";
          RetailersPage.email := "shop@example.com";
          RetailersPage.address := "";
          RetailersPage.location_lat := "12";
          RetailersPage.location_lng := "";
          RetailersPage.is_active := true |} |}.

Definition sample_product : Product :=
  {| p_id := "p1"; p_category_id := None; p_name := "Dewormer";
     p_description := None; p_manufacturer := None; p_is_active := true;
     p_created_at := "2024-01-01" |}.

Definition sample_cache : list query_entry :=
  [ {| entry_key := key_of QProducts; isInvalidated := false |};
    {| entry_key := key_of (QVariants (Some "p1")); isInvalidated := false |};
    {| entry_key := key_of (QVariants (Some "p2")); isInvalidated := false |};
    {| entry_key := key_of QAllVariants; isInvalidated := false |} ].

(** ** [components/common/StatusBadge.tsx] *)

Module StatusBadge.

Inductive status : Type :=
| OfBool (b : bool)
| OfString (s : string).

Record props : Type := mkProps {
  badge_status : status;
  activeText : option string;
  inactiveText : option string
}.

Record span : Type := mkSpan { className : string; text : string }.

(** [typeof status === 'boolean' ? status : status === 'active'] *)
Definition isActive (s : status) : bool :=
  match s with
  | OfBool b => b
  | OfString s => String.eqb s "active"
  end.

Definition StatusBadge (p : props) : span :=
  let active := default "Active" (activeText p) in
  let inactive := default "Inactive" (inactiveText p) in
  {| className :=
       "status-badge " ++ (if isActive (badge_status p)
                           then "active" else "inactive");
     text := if isActive (badge_status p) then active else inactive |}.

End StatusBadge.

(** ** Labels looked up in fetched lists *)

(** [list.find((c) => c.id === id)] for [id : string | undefined]. *)
Definition find_by_id {X} (get_id : X -> string) (id : option string)
    (l : list X) : option X :=
  match id with
  | Some i => List.find (fun x => String.eqb (get_id x) i) l
  | None => None
  end.

(** The [render] of the Parent column of [CategoriesPage]:
    [categories.find((c) => c.id === item.parent_id)?.name || '-']. *)
Definition parentLabel (categories : list ProductCategory)
    (item : ProductCategory) : string :=
  or_default (pc_name <$> find_by_id pc_id (pc_parent_id item) categories)
             "-".

(** [getCategoryName] of [ProductsPage]. *)
Definition getCategoryName (categories : list ProductCategory)
    (categoryId : option string) : string :=
  or_default (pc_name <$> find_by_id pc_id categoryId categories) "-".

(** [getVariantDisplay] of [RetailerProductsPage]:
    [variant ? `${variant.sku} - ${variant.name || 'Unnamed'}` : variantId]. *)
Definition variantText `{JSNumber} (v : ProductVariant) : string :=
  pv_sku v ++ " - " ++ or_default (pv_name v) "Unnamed".

Definition getVariantDisplay `{JSNumber} (products : list ProductVariant)
    (variantId : string) : string :=
  match find_by_id pv_id (Some variantId) products with
  | Some v => variantText v
  | None => variantId
  end.

(** ** The [all-variants] query of [RetailerProductsPage]

    The query function awaits the product list and then, one product
    after the other, the variants of each; a rejected request rejects the
    run.  The network is a pair of functions from the URL to the
    response data ([None] is a failed request); the requests sent are
    logged in order.  [queryFn] is one run of the query function; the
    query client calls it again after a failure, as [App.run_query]
    describes. *)
Module AllVariants.

Definition sent : Type := (verb * string)%type.

Definition log_of (r : request unit) : sent := (method r, url r).

Fixpoint collect `{JSNumber}
    (getVariants : string -> option (list ProductVariant))
    (products : list Product) (allVariants : list ProductVariant)
    (log : list sent) : option (list ProductVariant) * list sent :=
  match products with
  | [] => (Some allVariants, log)
  | product :: rest =>
      let r := productsApi.listVariants (D:=unit) (p_id product) in
      match getVariants (url r) with
      | Some variants =>
          collect getVariants rest (allVariants ++ variants)%list
                  (log ++ [log_of r])%list
      | None => (None, (log ++ [log_of r])%list)
      end
  end.

(** The request for the variants of a product, whether it is answered,
    and the data it returns. *)
Definition variantsRequest (p : Product) : sent :=
  log_of (productsApi.listVariants (p_id p)).

Definition answered `{JSNumber}
    (getVariants : string -> option (list ProductVariant)) (p : Product)
  : Prop :=
  is_Some (getVariants (url (productsApi.listVariants (D:=unit) (p_id p)))).

Definition variantsData `{JSNumber}
    (getVariants : string -> option (list ProductVariant)) (p : Product)
  : list ProductVariant :=
  default [] (getVariants (url (productsApi.listVariants (D:=unit) (p_id p)))).

Definition queryFn `{JSNumber}
    (getProducts : string -> option (list Product))
    (getVariants : string -> option (list ProductVariant))
  : option (list ProductVariant) * list sent :=
  let r := productsApi.list (D:=unit) None in
  match getProducts (url r) with
  | Some products => collect getVariants products [] [log_of r]
  | None => (None, [log_of r])
  end.

End AllVariants.

(** ** The list query and the columns of [OrdersPage] *)

Module OrdersTable.

(** [ordersApi.list(statusFilter ? { status: statusFilter } : undefined)] *)
Definition listRequest {D} (statusFilter : string) : request D :=
  ordersApi.list
    (if truthy statusFilter
     then Some {| ordersApi.lp_status := Some statusFilter;
                  ordersApi.lp_retailer_id := None;
                  ordersApi.lp_farmer_id := None |}
     else None).

Definition listQuery (statusFilter : string) : app_query :=
  QOrders statusFilter.

(** [s.slice(0, 8)] *)
Definition slice8 (s : string) : string := String.substring 0 8 s.

(** [o.id.slice(0, 8) + '...'] *)
Definition idCell (orderId : string) : string := slice8 orderId ++ "...".

(** [x?.slice(0, 8) || '-'], the Farmer and Retailer cells, and the
    Product Variant cell of [OrderDetailPage]. *)
Definition shortOrDash (x : option string) : string :=
  or_default (slice8 <$> x) "-".

End OrdersTable.

(** [o?.toString() || ''] for an optional number. *)
Definition num_text `{JSNumber} (o : option num) : string :=
  or_default (num_toString <$> o) "".

(** What [x || ''] followed by [y || undefined] makes of an optional
    string: an empty string becomes absent. *)
Definition normalized (o : option string) : option string :=
  match o with
  | Some s => or_undefined s
  | None => None
  end.

(** ** The forms of [ProductsPage] *)

Module ProductsForms.

Module productForm.
Record t : Type := mk {
  name : string;
  description : string;
  manufacturer : string;
  category_id : string;
  is_active : bool
}.
Definition blank : t :=
  {| name := ""; description := ""; manufacturer := ""; category_id := "";
     is_active := true |}.
End productForm.

Module variantForm.
Record t : Type := mk {
  sku : string;
  name : string;
  unit_size : string;
  unit_type : string;
  base_price : string;
  is_active : bool
}.
Definition blank : t :=
  {| sku := ""; name := ""; unit_size := ""; unit_type := "";
     base_price := ""; is_active := true |}.
End variantForm.

(** The page state together with its two forms. *)
Record page `{JSNumber} : Type := mkPage {
  st : ProductsPage.state;
  productFormData : productForm.t;
  variantFormData : variantForm.t
}.

Definition initial `{JSNumber} : page :=
  {| st := {| ProductsPage.productModalOpen := false;
              ProductsPage.variantModalOpen := false;
              ProductsPage.editingProduct := None;
              ProductsPage.selectedProduct := None;
              ProductsPage.editingVariant := None |};
     productFormData := productForm.blank;
     variantFormData := variantForm.blank |}.

Definition setEditingProduct `{JSNumber} (e : option Product)
    (s : ProductsPage.state) : ProductsPage.state :=
  {| ProductsPage.productModalOpen := ProductsPage.productModalOpen s;
     ProductsPage.variantModalOpen := ProductsPage.variantModalOpen s;
     ProductsPage.editingProduct := e;
     ProductsPage.selectedProduct := ProductsPage.selectedProduct s;
     ProductsPage.editingVariant := ProductsPage.editingVariant s |}.

Definition setSelectedProduct `{JSNumber} (e : option Product)
    (s : ProductsPage.state) : ProductsPage.state :=
  {| ProductsPage.productModalOpen := ProductsPage.productModalOpen s;
     ProductsPage.variantModalOpen := ProductsPage.variantModalOpen s;
     ProductsPage.editingProduct := ProductsPage.editingProduct s;
     ProductsPage.selectedProduct := e;
     ProductsPage.editingVariant := ProductsPage.editingVariant s |}.

Definition setEditingVariant `{JSNumber} (e : option ProductVariant)
    (s : ProductsPage.state) : ProductsPage.state :=
  {| ProductsPage.productModalOpen := ProductsPage.productModalOpen s;
     ProductsPage.variantModalOpen := ProductsPage.variantModalOpen s;
     ProductsPage.editingProduct := ProductsPage.editingProduct s;
     ProductsPage.selectedProduct := ProductsPage.selectedProduct s;
     ProductsPage.editingVariant := e |}.

Definition with_st `{JSNumber} (f : ProductsPage.state -> ProductsPage.state)
    (pg : page) : page :=
  {| st := f (st pg); productFormData := productFormData pg;
     variantFormData := variantFormData pg |}.

Definition setProductForm `{JSNumber} (f : productForm.t) (pg : page) : page :=
  {| st := st pg; productFormData := f;
     variantFormData := variantFormData pg |}.

Definition setVariantForm `{JSNumber} (f : variantForm.t) (pg : page) : page :=
  {| st := st pg; productFormData := productFormData pg;
     variantFormData := f |}.

Definition openCreateProduct `{JSNumber} (pg : page) : page :=
  with_st (ProductsPage.setProductModalOpen true)
    (setProductForm productForm.blank
       (with_st (setEditingProduct None) pg)).

Definition openEditProduct `{JSNumber} (product : Product) (pg : page)
  : page :=
  with_st (ProductsPage.setProductModalOpen true)
    (setProductForm
       {| productForm.name := p_name product;
          productForm.description := or_default (p_description product) "";
          productForm.manufacturer := or_default (p_manufacturer product) "";
          productForm.category_id := or_default (p_category_id product) "";
          productForm.is_active := p_is_active product |}
       (with_st (setEditingProduct (Some product)) pg)).

Record productPayload : Type := mkProductPayload {
  data_name : string;
  data_description : option string;
  data_manufacturer : option string;
  data_category_id : option string;
  data_is_active : bool
}.

Definition productData (f : productForm.t) : productPayload :=
  {| data_name := productForm.name f;
     data_description := or_undefined (productForm.description f);
     data_manufacturer := or_undefined (productForm.manufacturer f);
     data_category_id := or_undefined (productForm.category_id f);
     data_is_active := productForm.is_active f |}.

Definition handleProductSubmit `{JSNumber} (pg : page)
  : request productPayload :=
  match ProductsPage.editingProduct (st pg) with
  | Some e => productsApi.update (p_id e) (productData (productFormData pg))
  | None => productsApi.create (productData (productFormData pg))
  end.

Definition openCreateVariant `{JSNumber} (pg : page) : page :=
  with_st (ProductsPage.setVariantModalOpen true)
    (setVariantForm variantForm.blank
       (with_st (setEditingVariant None) pg)).

Definition openEditVariant `{JSNumber} (variant : ProductVariant) (pg : page)
  : page :=
  with_st (ProductsPage.setVariantModalOpen true)
    (setVariantForm
       {| variantForm.sku := pv_sku variant;
          variantForm.name := or_default (pv_name variant) "";
          variantForm.unit_size := or_default (pv_unit_size variant) "";
          variantForm.unit_type := or_default (pv_unit_type variant) "";
          variantForm.base_price := num_text (pv_base_price variant);
          variantForm.is_active := pv_is_active variant |}
       (with_st (setEditingVariant (Some variant)) pg)).

Record variantPayload `{JSNumber} : Type := mkVariantPayload {
  data_sku : string;
  data_vname : option string;
  data_unit_size : option string;
  data_unit_type : option string;
  data_base_price : option num;
  data_vis_active : bool
}.

Definition variantData `{JSNumber} (f : variantForm.t) : variantPayload :=
  {| data_sku := variantForm.sku f;
     data_vname := or_undefined (variantForm.name f);
     data_unit_size := or_undefined (variantForm.unit_size f);
     data_unit_type := or_undefined (variantForm.unit_type f);
     data_base_price := RetailersPage.parse_if_truthy (variantForm.base_price f);
     data_vis_active := variantForm.is_active f |}.

(** [selectedProduct!.id] throws when no product is selected: [None]. *)
Definition handleVariantSubmit `{JSNumber} (pg : page)
  : option (request variantPayload) :=
  match ProductsPage.editingVariant (st pg) with
  | Some e =>
      Some (productsApi.updateVariant (pv_id e)
              (variantData (variantFormData pg)))
  | None =>
      match ProductsPage.selectedProduct (st pg) with
      | Some p =>
          Some (productsApi.createVariant (p_id p)
                  (variantData (variantFormData pg)))
      | None => None
      end
  end.

(** What can happen to the page: the buttons, the inputs the two modals
    contain, and the closing of a modal (by Cancel or by a mutation's
    success handler).  The product modal has no input for the
    description, the variant modal none for the unit type. *)
Inductive event `{JSNumber} : Type :=
| OpenCreateProduct
| OpenEditProduct (product : Product)
| CloseProductModal
| SetProductName (s : string)
| SetCategory (s : string)
| SetManufacturer (s : string)
| SetProductActive (b : bool)
| SelectProduct (product : Product)
| Back
| OpenCreateVariant
| OpenEditVariant (variant : ProductVariant)
| CloseVariantModal
| SetSku (s : string)
| SetVariantName (s : string)
| SetUnitSize (s : string)
| SetBasePrice (s : string)
| SetVariantActive (b : bool).

Definition step `{JSNumber} (pg : page) (ev : event) : page :=
  let pf := productFormData pg in
  let vf := variantFormData pg in
  match ev with
  | OpenCreateProduct => openCreateProduct pg
  | OpenEditProduct p => openEditProduct p pg
  | CloseProductModal => with_st (ProductsPage.setProductModalOpen false) pg
  | SetProductName s =>
      setProductForm
        {| productForm.name := s;
           productForm.description := productForm.description pf;
           productForm.manufacturer := productForm.manufacturer pf;
           productForm.category_id := productForm.category_id pf;
           productForm.is_active := productForm.is_active pf |} pg
  | SetCategory s =>
      setProductForm
        {| productForm.name := productForm.name pf;
           productForm.description := productForm.description pf;
           productForm.manufacturer := productForm.manufacturer pf;
           productForm.category_id := s;
           productForm.is_active := productForm.is_active pf |} pg
  | SetManufacturer s =>
      setProductForm
        {| productForm.name := productForm.name pf;
           productForm.description := productForm.description pf;
           productForm.manufacturer := s;
           productForm.category_id := productForm.category_id pf;
           productForm.is_active := productForm.is_active pf |} pg
  | SetProductActive b =>
      setProductForm
        {| productForm.name := productForm.name pf;
           productForm.description := productForm.description pf;
           productForm.manufacturer := productForm.manufacturer pf;
           productForm.category_id := productForm.category_id pf;
           productForm.is_active := b |} pg
  | SelectProduct p => with_st (setSelectedProduct (Some p)) pg
  | Back => with_st (setSelectedProduct None) pg
  | OpenCreateVariant => openCreateVariant pg
  | OpenEditVariant v => openEditVariant v pg
  | CloseVariantModal => with_st (ProductsPage.setVariantModalOpen false) pg
  | SetSku s =>
      setVariantForm
        {| variantForm.sku := s;
           variantForm.name := variantForm.name vf;
           variantForm.unit_size := variantForm.unit_size vf;
           variantForm.unit_type := variantForm.unit_type vf;
           variantForm.base_price := variantForm.base_price vf;
           variantForm.is_active := variantForm.is_active vf |} pg
  | SetVariantName s =>
      setVariantForm
        {| variantForm.sku := variantForm.sku vf;
           variantForm.name := s;
           variantForm.unit_size := variantForm.unit_size vf;
           variantForm.unit_type := variantForm.unit_type vf;
           variantForm.base_price := variantForm.base_price vf;
           variantForm.is_active := variantForm.is_active vf |} pg
  | SetUnitSize s =>
      setVariantForm
        {| variantForm.sku := variantForm.sku vf;
           variantForm.name := variantForm.name vf;
           variantForm.unit_size := s;
           variantForm.unit_type := variantForm.unit_type vf;
           variantForm.base_price := variantForm.base_price vf;
           variantForm.is_active := variantForm.is_active vf |} pg
  | SetBasePrice s =>
      setVariantForm
        {| variantForm.sku := variantForm.sku vf;
           variantForm.name := variantForm.name vf;
           variantForm.unit_size := variantForm.unit_size vf;
           variantForm.unit_type := variantForm.unit_type vf;
           variantForm.base_price := s;
           variantForm.is_active := variantForm.is_active vf |} pg
  | SetVariantActive b =>
      setVariantForm
        {| variantForm.sku := variantForm.sku vf;
           variantForm.name := variantForm.name vf;
           variantForm.unit_size := variantForm.unit_size vf;
           variantForm.unit_type := variantForm.unit_type vf;
           variantForm.base_price := variantForm.base_price vf;
           variantForm.is_active := b |} pg
  end.

Definition run `{JSNumber} (pg : page) (evs : list event) : page :=
  fold_left step evs pg.

(** The fields no input can change stay what the last opening of the
    form made them. *)
Definition untouched_fields `{JSNumber} (pg : page) : Prop :=
  productForm.description (productFormData pg)
  = or_default (ProductsPage.editingProduct (st pg) ≫= p_description) ""
  ∧ variantForm.unit_type (variantFormData pg)
    = or_default (ProductsPage.editingVariant (st pg) ≫= pv_unit_type) "".

End ProductsForms.

(** ** Opening the form of [RetailersPage] *)

Module RetailersForm.

Definition blank : RetailersPage.form :=
  {| RetailersPage.name := ""; RetailersPage.phone := "";
     RetailersPage.email := ""; RetailersPage.address := "";
     RetailersPage.location_lat := ""; RetailersPage.location_lng := "";
     RetailersPage.is_active := true |}.

Definition openCreate `{JSNumber} (st : RetailersPage.state)
  : RetailersPage.state :=
  {| RetailersPage.modalOpen := true; RetailersPage.editing := None;
     RetailersPage.formData := blank |}.

Definition openEdit `{JSNumber} (retailer : Retailer)
    (st : RetailersPage.state) : RetailersPage.state :=
  {| RetailersPage.modalOpen := true;
     RetailersPage.editing := Some retailer;
     RetailersPage.formData :=
       {| RetailersPage.name := r_name retailer;
          RetailersPage.phone := or_default (r_phone retailer) "";
          RetailersPage.email := or_default (r_email retailer) "";
          RetailersPage.address := or_default (r_address retailer) "";
          RetailersPage.location_lat := num_text (r_location_lat retailer);
          RetailersPage.location_lng := num_text (r_location_lng retailer);
          RetailersPage.is_active := r_is_active retailer |} |}.

(** A number that is printed as a non-empty text and read back from it. *)
Definition reads_back `{JSNumber} (o : option num) : Prop :=
  ∀ n, o = Some n → num_toString n ≠ "" ∧ parseFloat (num_toString n) = n.

End RetailersForm.

(** ** The form of [RetailerProductsPage] *)

Module MappingForm.

Record form : Type := mkForm {
  product_variant_id : string;
  price : string;
  stock_quantity : string;
  is_available : bool
}.

Definition blank : form :=
  {| product_variant_id := ""; price := ""; stock_quantity := "0";
     is_available := true |}.

Record page `{JSNumber} : Type := mkPage {
  st : RetailerProductsPage.state;
  formData : form
}.

Definition initial `{JSNumber} : page :=
  {| st := {| RetailerProductsPage.selectedRetailer := None;
              RetailerProductsPage.modalOpen := false;
              RetailerProductsPage.editing := None |};
     formData := blank |}.

Definition setSelectedRetailer `{JSNumber} (r : option Retailer) (pg : page)
  : page :=
  {| st := {| RetailerProductsPage.selectedRetailer := r;
              RetailerProductsPage.modalOpen :=
                RetailerProductsPage.modalOpen (st pg);
              RetailerProductsPage.editing :=
                RetailerProductsPage.editing (st pg) |};
     formData := formData pg |}.

Definition setFormData `{JSNumber} (f : form) (pg : page) : page :=
  {| st := st pg; formData := f |}.

Definition openCreate `{JSNumber} (pg : page) : page :=
  {| st := {| RetailerProductsPage.selectedRetailer :=
                RetailerProductsPage.selectedRetailer (st pg);
              RetailerProductsPage.modalOpen := true;
              RetailerProductsPage.editing := None |};
     formData := blank |}.

Definition openEdit `{JSNumber} (mapping : RetailerProduct) (pg : page)
  : page :=
  {| st := {| RetailerProductsPage.selectedRetailer :=
                RetailerProductsPage.selectedRetailer (st pg);
              RetailerProductsPage.modalOpen := true;
              RetailerProductsPage.editing := Some mapping |};
     formData :=
       {| product_variant_id := rp_product_variant_id mapping;
          price := num_toString (rp_price mapping);
          stock_quantity := num_toString (rp_stock_quantity mapping);
          is_available := rp_is_available mapping |} |}.

Definition closeModal `{JSNumber} (pg : page) : page :=
  {| st := RetailerProductsPage.closeModal (st pg); formData := formData pg |}.

Record payload `{JSNumber} : Type := mkPayload {
  data_product_variant_id : string;
  data_price : num;
  data_stock_quantity : num;
  data_is_available : bool
}.

Definition submitData `{JSNumber} (f : form) : payload :=
  {| data_product_variant_id := product_variant_id f;
     data_price := parseFloat (price f);
     data_stock_quantity := parseInt (stock_quantity f);
     data_is_available := is_available f |}.

(** [selectedRetailer!.id] throws when no retailer is selected: [None]. *)
Definition handleSubmit `{JSNumber} (pg : page) : option (request payload) :=
  match RetailerProductsPage.editing (st pg) with
  | Some e =>
      Some (retailersApi.updateProduct (rp_id e) (submitData (formData pg)))
  | None =>
      match RetailerProductsPage.selectedRetailer (st pg) with
      | Some r =>
          Some (retailersApi.addProduct (r_id r) (submitData (formData pg)))
      | None => None
      end
  end.

Inductive event `{JSNumber} : Type :=
| OpenCreate
| OpenEdit (mapping : RetailerProduct)
| CloseModal
| SelectRetailer (r : Retailer)
| Back
| SetVariant (v : string)
| SetPrice (s : string)
| SetStock (s : string)
| SetAvailable (b : bool).

(** The variant select is rendered only while no mapping is being
    edited ([!editing && ...]); its event cannot occur otherwise. *)
Definition step `{JSNumber} (pg : page) (ev : event) : option page :=
  let f := formData pg in
  match ev with
  | OpenCreate => Some (openCreate pg)
  | OpenEdit m => Some (openEdit m pg)
  | CloseModal => Some (closeModal pg)
  | SelectRetailer r => Some (setSelectedRetailer (Some r) pg)
  | Back => Some (setSelectedRetailer None pg)
  | SetVariant v =>
      match RetailerProductsPage.editing (st pg) with
      | Some _ => None
      | None =>
          Some (setFormData
                  {| product_variant_id := v; price := price f;
                     stock_quantity := stock_quantity f;
                     is_available := is_available f |} pg)
      end
  | SetPrice s =>
      Some (setFormData
              {| product_variant_id := product_variant_id f; price := s;
                 stock_quantity := stock_quantity f;
                 is_available := is_available f |} pg)
  | SetStock s =>
      Some (setFormData
              {| product_variant_id := product_variant_id f;
                 price := price f; stock_quantity := s;
                 is_available := is_available f |} pg)
  | SetAvailable b =>
      Some (setFormData
              {| product_variant_id := product_variant_id f;
                 price := price f; stock_quantity := stock_quantity f;
                 is_available := b |} pg)
  end.

Fixpoint run `{JSNumber} (pg : page) (evs : list event) : option page :=
  match evs with
  | [] => Some pg
  | ev :: evs' =>
      match step pg ev with
      | Some pg' => run pg' evs'
      | None => None
      end
  end.

(** While a mapping is being edited the form still names its variant. *)
Definition variant_fixed `{JSNumber} (pg : page) : Prop :=
  ∀ m, RetailerProductsPage.editing (st pg) = Some m →
       product_variant_id (formData pg) = rp_product_variant_id m.

End MappingForm.

(** While a category is being edited the modal is open. *)
Definition editing_means_open (st : CategoriesPage.state) : Prop :=
  CategoriesPage.editing st ≠ None → CategoriesPage.modalOpen st = true.

(** Distinct ids in a fetched list. *)
Definition unique_ids {X} (get_id : X -> string) (l : list X) : Prop :=
  NoDup (map get_id l).

(** Sample data for the further properties. *)
Definition request_with_own_header : request unit :=
  {| method := GET; url := "/orders"; params := []; data := None;
     headers := {[ "Authorization" := "Basic abc" ]} |}.

Definition bolus : ProductVariant (H:=integer_numbers) :=
  mkProductVariant integer_numbers "v1" "p1" "DW-100" (Some "Bolus") None
    None (Some (Some 120)) true "2024-01-03".

Definition drench : ProductVariant (H:=integer_numbers) :=
  mkProductVariant integer_numbers "v2" "p1" "DW-500" None (Some "500ml")
    None None true "2024-01-04".

Definition second_product : Product :=
  {| p_id := "p2"; p_category_id := Some "a"; p_name := "Tonic";
     p_description := Some "liver tonic"; p_manufacturer := None;
     p_is_active := true; p_created_at := "2024-01-05" |}.

(** A backend with two products; the variants of [p2] cannot be read. *)
Definition two_products (u : string) : option (list Product) :=
  if String.eqb u "/products" then Some [sample_product; second_product]
  else None.

Definition variants_of_p1_only (u : string)
  : option (list (ProductVariant (H:=integer_numbers))) :=
  if String.eqb u "/products/p1/variants" then Some [bolus; drench] else None.

Definition sample_retailer : Retailer (H:=integer_numbers) :=
  mkRetailer integer_numbers "r7" "Agro Store" (Some "") None
    (Some "Main road") (Some (Some 12)) None true "2024-02-01".

Definition sample_mapping : RetailerProduct (H:=integer_numbers) :=
  mkRetailerProduct integer_numbers "m1" "r7" "v1" (Some 150) (Some 4) true.


(** A variant form submitted for product [p1], and the page after the
    form was cancelled and the variants of [p2] were opened. *)
Definition variant_form_submitted : ProductsForms.page (H:=integer_numbers) :=
  ProductsForms.run ProductsForms.initial
    [ProductsForms.SelectProduct sample_product;
     ProductsForms.OpenCreateVariant;
     ProductsForms.SetSku "DW-250"].

Definition moved_to_other_product
  : ProductsForms.page (H:=integer_numbers) :=
  ProductsForms.run variant_form_submitted
    [ProductsForms.CloseVariantModal;
     ProductsForms.Back;
     ProductsForms.SelectProduct second_product].

(** * Properties *)

(** ** Strings *)

Lemma truthy_true_iff (s : string) : truthy s = true ↔ s ≠ "".
Proof. destruct s; simpl; split; congruence. Qed.

Lemma truthy_false_iff (s : string) : truthy s = false ↔ s = "".
Proof. destruct s; simpl; split; congruence. Qed.

Lemma or_undefined_empty : or_undefined "" = None.
Proof. reflexivity. Qed.

Lemma or_undefined_nonempty (s : string) : s ≠ "" → or_undefined s = Some s.
Proof.
  intros Hs. unfold or_undefined.
  apply truthy_true_iff in Hs. now rewrite Hs.
Qed.

Lemma or_undefined_Some (s t : string) :
  or_undefined s = Some t → s = t ∧ t ≠ "".
Proof.
  unfold or_undefined. destruct s as [|a s]; simpl; [discriminate|].
  intros [= <-]. split; [reflexivity | discriminate].
Qed.

Lemma length_append (s t : string) :
  String.length (s ++ t) = (String.length s + String.length t)%nat.
Proof. induction s as [|a s IH]; simpl; [reflexivity | now rewrite IH]. Qed.

Lemma append_empty_r (s : string) : s ++ "" = s.
Proof.
  induction s as [|a s IH]; [reflexivity|].
  change (String a (s ++ "") = String a s). now rewrite IH.
Qed.

(** Prepending a non-empty string never gives the string back. *)
Lemma prepend_changes (p s : string) : p ≠ "" → p ++ s ≠ s.
Proof.
  intros Hp Heq. apply (f_equal String.length) in Heq.
  rewrite length_append in Heq.
  destruct p as [|a p]; [congruence | simpl in Heq; lia].
Qed.

(** ** The HTTP client *)

Section client_properties.

Context {A D : Type}.

Lemma unauthorized_spec (e : Client.error) :
  Client.is_unauthorized e = true
  ↔ Client.status <$> Client.err_response e = Some 401.
Proof.
  unfold Client.is_unauthorized.
  destruct (Client.err_response e) as [[st]|]; simpl.
  - rewrite Z.eqb_eq. split; [intros ->; reflexivity | now intros [= ->]].
  - split; discriminate.
Qed.

(** C1.  The response interceptor's rejection handler always rejects
    with the error it received.  On a 401 it deletes [admin_token] from
    local storage (every other key keeps its value) and sets the window
    location to [/login]; on any other error, including one without a
    response, the browser state is returned as it was. *)
Theorem response_error_interceptor_spec (e : Client.error) (b : browser) :
  snd (Client.responseErrorInterceptor (A:=A) e b) = Client.Rejected e
  ∧ (Client.status <$> Client.err_response e = Some 401 →
       let b' := fst (Client.responseErrorInterceptor (A:=A) e b) in
       localStorage b' = delete "admin_token" (localStorage b)
       ∧ getItem "admin_token" b' = None
       ∧ location_href b' = "/login")
  ∧ (Client.status <$> Client.err_response e ≠ Some 401 →
       fst (Client.responseErrorInterceptor (A:=A) e b) = b).
Proof.
  unfold Client.responseErrorInterceptor; simpl.
  split; [reflexivity|]. split.
  - intros H401. apply unauthorized_spec in H401. rewrite H401. simpl.
    repeat split. unfold getItem; simpl. apply lookup_delete_eq.
  - intros Hother.
    destruct (Client.is_unauthorized e) eqn:Hu; [|reflexivity].
    apply unauthorized_spec in Hu. contradiction.
Qed.

(** First copy of the client: the variable's value when it is set and
    non-empty, the default otherwise. *)
Lemma baseURL_A_spec (env : option string) :
  (∀ s, env = Some s → s ≠ "" → Client.baseURL_A env = s)
  ∧ (env = None ∨ env = Some "" → Client.baseURL_A env = "/api/admin").
Proof.
  unfold Client.baseURL_A, or_default. split.
  - intros s -> Hs. apply truthy_true_iff in Hs. now rewrite Hs.
  - intros [-> | ->]; reflexivity.
Qed.

Lemma baseURL_B_unfold (env : option string) :
  Client.baseURL_B env =
    if negb (String.eqb (Client.baseURL_A env) "/api/admin")
       && negb (startsWith (Client.baseURL_A env) "http")
    then "https://" ++ Client.baseURL_A env
    else Client.baseURL_A env.
Proof. reflexivity. Qed.

Lemma baseURL_agree_iff (env : option string) :
  Client.baseURL_A env = Client.baseURL_B env
  ↔ Client.baseURL_A env = "/api/admin"
    ∨ startsWith (Client.baseURL_A env) "http" = true.
Proof.
  rewrite baseURL_B_unfold.
  destruct (String.eqb_spec (Client.baseURL_A env) "/api/admin") as [He|He];
    simpl.
  - split; [now left | reflexivity].
  - destruct (startsWith (Client.baseURL_A env) "http"); simpl.
    + split; [now right | reflexivity].
    + split.
      * intros Heq. symmetry in Heq. now apply prepend_changes in Heq.
      * intros [H|H]; [contradiction | discriminate].
Qed.

End client_properties.

(** C3, as stated, fails: the second copy of the client does not hand a
    host name through unchanged, so it neither equals the variable's value
    nor agrees with the first copy. *)
Lemma baseURL_B_rewrites_host :
  ¬ (follows_env Client.baseURL_A ∧ follows_env Client.baseURL_B
     ∧ ∀ env, Client.baseURL_A env = Client.baseURL_B env).
Proof.
  intros (_ & HB & _).
  specialize (HB "api.example.com").
  vm_compute in HB. discriminate HB. discriminate.
Qed.

(** C3, amended.  In the first copy the base URL is the variable's value
    when that is set and non-empty and [/api/admin] otherwise.  The second
    copy yields the same for an unset or empty variable and for a value
    that is [/api/admin] or starts with [http]; any other value is
    prefixed with [https://].  Hence the two copies agree exactly on an
    unset or empty variable, on [/api/admin], and on values starting with
    [http]. *)
Theorem baseURL_spec (env : option string) :
  (env = None ∨ env = Some "" →
     Client.baseURL_A env = "/api/admin" ∧ Client.baseURL_B env = "/api/admin")
  ∧ (∀ s, env = Some s → s ≠ "" →
       Client.baseURL_A env = s
       ∧ (s = "/api/admin" ∨ startsWith s "http" = true →
            Client.baseURL_B env = s)
       ∧ (s ≠ "/api/admin" → startsWith s "http" = false →
            Client.baseURL_B env = "https://" ++ s))
  ∧ (Client.baseURL_A env = Client.baseURL_B env
     ↔ env = None ∨ env = Some "" ∨ env = Some "/api/admin"
       ∨ ∃ s, env = Some s ∧ startsWith s "http" = true).
Proof.
  split; [|split].
  - intros [-> | ->]; split; reflexivity.
  - intros s -> Hs.
    assert (HA : Client.baseURL_A (Some s) = s)
      by (now apply (proj1 (baseURL_A_spec (Some s)))).
    split; [exact HA|]. rewrite baseURL_B_unfold, HA. split.
    + intros [-> | Hp]; [reflexivity|].
      rewrite Hp. simpl. now rewrite andb_false_r.
    + intros Hne Hp. rewrite Hp.
      destruct (String.eqb_spec s "/api/admin"); [contradiction | reflexivity].
  - rewrite baseURL_agree_iff. destruct env as [s|].
    + destruct (decide (s = "")) as [-> | Hs].
      * split; [intros _; right; now left | intros _; now left].
      * assert (HA : Client.baseURL_A (Some s) = s)
          by (now apply (proj1 (baseURL_A_spec (Some s)))).
        rewrite HA. split.
        -- intros [-> | Hp]; [right; right; now left|].
           right; right; right. now exists s.
        -- intros [H | [H | [H | (t & H & Hp)]]]; try congruence.
           ++ left. congruence.
           ++ right. congruence.
    + split; [intros _; now left | intros _; now left].
Qed.

(** A value without scheme: the first copy keeps it, the second prefixes
    it, and the two differ. *)
Lemma baseURL_spec_example :
  Client.baseURL_A (Some "api.example.com") = "api.example.com"
  ∧ Client.baseURL_B (Some "api.example.com") = "https://api.example.com".
Proof.
  destruct (baseURL_spec (Some "api.example.com")) as (_ & H & _).
  destruct (H "api.example.com" eq_refl ltac:(discriminate)) as (HA & _ & HB).
  split; [exact HA|]. apply HB; [discriminate | reflexivity].
Defined.

(** C4, as stated, fails: an empty string stored under [admin_token] is a
    stored value, yet no header is set for it. *)
Lemma empty_token_sets_no_header : ¬ bearer_for_every_stored_value.
Proof.
  intros H.
  specialize (H stored_empty_token plain_request "" eq_refl).
  vm_compute in H. discriminate H.
Qed.

(** C4, amended.  When local storage holds a non-empty value under
    [admin_token], the request interceptor returns the config with the
    [Authorization] header set to [Bearer ] followed by that value and
    everything else unchanged; when nothing or the empty string is stored,
    it returns the config unchanged. *)
Theorem request_interceptor_spec {D} (b : browser) (config : request D) :
  (∀ token, getItem "admin_token" b = Some token → token ≠ "" →
     Client.requestInterceptor b config
     = {| method := method config; url := url config;
          params := params config; data := data config;
          headers := <["Authorization" := "Bearer " ++ token]>
                       (headers config) |}
     ∧ headers (Client.requestInterceptor b config) !! "Authorization"
       = Some ("Bearer " ++ token)
     ∧ ∀ h, h ≠ "Authorization" →
         headers (Client.requestInterceptor b config) !! h
         = headers config !! h)
  ∧ (getItem "admin_token" b = None ∨ getItem "admin_token" b = Some "" →
     Client.requestInterceptor b config = config).
Proof.
  unfold Client.requestInterceptor. split.
  - intros token -> Hne. apply truthy_true_iff in Hne. rewrite Hne.
    split; [reflexivity|]. simpl. split.
    + apply lookup_insert_eq.
    + intros h Hh. now apply lookup_insert_ne.
  - intros [-> | ->]; reflexivity.
Qed.

(** The interceptor on a stored token and on an empty one. *)
Lemma request_interceptor_example :
  headers (Client.requestInterceptor stored_token plain_request)
    !! "Authorization" = Some "Bearer t0k3n"
  ∧ Client.requestInterceptor stored_empty_token plain_request
    = plain_request.
Proof.
  split.
  - destruct (request_interceptor_spec stored_token plain_request) as [H _].
    destruct (H "t0k3n" eq_refl ltac:(discriminate)) as (_ & Hh & _).
    exact Hh.
  - apply (request_interceptor_spec stored_empty_token plain_request).
    right. reflexivity.
Defined.

(** The 401 handler on a stored token. *)
Lemma response_error_interceptor_example :
  let b' := fst (Client.responseErrorInterceptor (A:=unit)
                   unauthorized_error stored_token) in
  getItem "admin_token" b' = None ∧ location_href b' = "/login".
Proof.
  destruct (response_error_interceptor_spec (A:=unit)
              unauthorized_error stored_token) as (_ & H & _).
  destruct (H eq_refl) as (_ & Hg & Hl). split; assumption.
Defined.

(** ** The query client *)

Lemma run_query_retries_le {R} (fetch : nat -> option R) (k n : nat) :
  (n ≤ snd (App.run_query k n fetch) ≤ n + k)%nat.
Proof.
  revert n. induction k as [|k IH]; intros n; simpl.
  - destruct (fetch n); simpl; lia.
  - destruct (fetch n); simpl; [lia|].
    specialize (IH (S n)). lia.
Qed.

(** C2, as stated, fails: a query whose request keeps failing is tried a
    second time, so the number of automatic retries is not zero. *)
Lemma failed_query_is_retried :
  ¬ (∀ fetch : nat -> option unit, App.retries_performed fetch = 0%nat).
Proof.
  intros H. specialize (H always_fails). vm_compute in H. discriminate H.
Qed.

(** C2, amended.  The query client is configured with [retry: 1]: a query
    whose first attempt succeeds is not retried, a query whose first
    attempt fails is retried exactly once, and no query is retried more
    than once. *)
Theorem query_retried_once {R} (fetch : nat -> option R) :
  App.retry App.queryClient_defaultOptions_queries = 1%nat
  ∧ (App.retries_performed fetch ≤ 1)%nat
  ∧ (∀ r, fetch 0%nat = Some r →
       App.useQuery fetch = (Some r, 0%nat))
  ∧ (fetch 0%nat = None →
       App.useQuery fetch = (fetch 1%nat, 1%nat)).
Proof.
  split; [reflexivity|]. split; [|split].
  - unfold App.retries_performed, App.useQuery.
    pose proof (run_query_retries_le fetch
                  (App.retry App.queryClient_defaultOptions_queries) 0).
    simpl in *. lia.
  - intros r Hr. unfold App.useQuery. simpl. now rewrite Hr.
  - intros H0. unfold App.useQuery. simpl. rewrite H0.
    destruct (fetch 1%nat); reflexivity.
Qed.

(** A request that always fails is attempted twice. *)
Lemma query_retried_once_example :
  App.useQuery always_fails = (None, 1%nat).
Proof.
  destruct (query_retried_once always_fails) as (_ & _ & _ & H).
  exact (H eq_refl).
Defined.

(** ** The API modules *)

Lemma issue_url {D} (c : api_call D) :
  url (issue c) = instantiate (path_of c) (path_arg c).
Proof.
  destruct c; simpl; try reflexivity;
    rewrite ?append_empty_r; reflexivity.
Qed.

Lemma path_of_known {D} (c : api_call D) :
  path_of c ∈ (listed_paths ++ item_paths)%list.
Proof.
  destruct c; simpl; unfold listed_paths, item_paths; simpl;
    repeat first [ apply list_elem_of_here | apply list_elem_of_further ].
Qed.

Lemma issue_verb {D} (c : api_call D) : allowed_verb (method (issue c)) = true.
Proof. destruct c; reflexivity. Qed.

(** The update of a category goes to [/categories/{id}], which is none of
    the nine listed paths. *)
Lemma category_update_path_not_listed (t : resource_path) :
  t ∈ listed_paths → ¬ targets "/categories/c1" t.
Proof.
  unfold listed_paths. intros Ht [id Hid].
  repeat (apply elem_of_cons in Ht as [-> | Ht];
          [simpl in Hid; discriminate Hid|]).
  now apply elem_of_nil in Ht.
Qed.

(** C5, as stated, fails: [categoriesApi.update] sends its [PATCH] to
    [/categories/c1], a path outside the nine listed ones. *)
Lemma item_update_outside_listed_paths : ¬ only_listed_paths.
Proof.
  intros H. destruct (H (CategoriesUpdate "c1" tt)) as (t & Ht & Htg).
  exact (category_update_path_not_listed t Ht Htg).
Qed.

(** C5, amended.  Every request built by the four API modules targets one
    of the nine listed resource paths or one of the three item paths
    [/categories/{id}], [/products/{id}], [/retailers/{id}] (with the path
    parameter substituted), and its verb is [GET], [POST] or [PATCH]. *)
Theorem api_paths_and_verbs {D} (c : api_call D) :
  (∃ t, t ∈ (listed_paths ++ item_paths)%list
        ∧ url (issue c) = instantiate t (path_arg c)
        ∧ targets (url (issue c)) t)
  ∧ method (issue c) ∈ [GET; POST; PATCH].
Proof.
  split.
  - exists (path_of c). split; [apply path_of_known|].
    split; [apply issue_url|]. exists (path_arg c). apply issue_url.
  - pose proof (issue_verb c) as Hv.
    destruct (method (issue c)); simpl in Hv; try discriminate Hv;
      repeat first [ apply list_elem_of_here | apply list_elem_of_further ].
Qed.

(** ** Order status badges *)

Lemma getStatusClass_unknown (s : string) :
  s ∉ known_statuses → OrdersPage.getStatusClass s = "".
Proof.
  unfold known_statuses, OrdersPage.getStatusClass. intros Hs.
  repeat match goal with
         | |- context [String.eqb s ?k] =>
             destruct (String.eqb_spec s k) as [-> | _];
             [exfalso; apply Hs;
              repeat first [ apply list_elem_of_here
                           | apply list_elem_of_further ]
             | simpl ]
         end.
  reflexivity.
Qed.

Lemma statusClass_unknown (s : string) :
  s ∉ known_statuses → OrderDetailPage.statusClass s = "inactive".
Proof.
  unfold known_statuses, OrderDetailPage.statusClass. intros Hs.
  repeat match goal with
         | |- context [String.eqb s ?k] =>
             destruct (String.eqb_spec s k) as [-> | _];
             [exfalso; apply Hs;
              repeat first [ apply list_elem_of_here
                           | apply list_elem_of_further ]
             | simpl ]
         end.
  reflexivity.
Qed.

(** C8, as stated, fails: for a status outside the five known ones the
    list page gives the empty class and the detail page [inactive]. *)
Lemma badges_differ_on_unknown_status : ¬ (∀ status, same_badge status).
Proof.
  intros H. specialize (H "shipped"). vm_compute in H. discriminate H.
Qed.

(** C8, amended.  The two mappings coincide on [pending], [fulfilled],
    [rejected] and [cancelled]; for every string outside the five known
    statuses, [getStatusClass] yields the empty class while the detail
    page yields [inactive]. *)
Theorem badge_classes_compared :
  (∀ s, s ∈ ["pending"; "fulfilled"; "rejected"; "cancelled"] →
        same_badge s)
  ∧ (∀ s, s ∉ known_statuses →
          OrdersPage.getStatusClass s = ""
          ∧ OrderDetailPage.statusClass s = "inactive").
Proof.
  split.
  - intros s Hs.
    repeat (apply elem_of_cons in Hs as [-> | Hs]; [reflexivity|]).
    now apply elem_of_nil in Hs.
  - intros s Hs. split;
      [now apply getStatusClass_unknown | now apply statusClass_unknown].
Qed.

Lemma badge_classes_compared_example :
  same_badge "rejected"
  ∧ OrdersPage.getStatusClass "shipped" = ""
  ∧ OrderDetailPage.statusClass "shipped" = "inactive".
Proof.
  destruct badge_classes_compared as [Hk Hu]. split.
  - apply Hk. repeat first [ apply list_elem_of_here
                           | apply list_elem_of_further ].
  - apply Hu. unfold known_statuses. intros Hin.
    repeat (apply elem_of_cons in Hin as [Hin | Hin]; [discriminate Hin|]).
    now apply elem_of_nil in Hin.
Defined.

(** An accepted order is shown [active] in the list and [inactive] on the
    detail page. *)
Lemma accepted_badge :
  OrdersPage.getStatusClass "accepted" = "active"
  ∧ OrderDetailPage.statusClass "accepted" = "inactive".
Proof. split; reflexivity. Qed.

(** ** The table renderer *)

Section datatable_properties.

Context `{JSNumber} {N A : Type}.

Implicit Types (p : DataTableProps N A) (it : item) (col : Column N).

Lemma lookup_map {X Y} (f : X → Y) (l : list X) (i : nat) :
  map f l !! i = f <$> (l !! i).
Proof.
  revert i. induction l as [|x l IH]; intros [|i]; simpl; auto.
Qed.

Lemma render_cell_text it col :
  render col = None →
  render_cell it col
  = {| td_key := key col; td_content := Text (shown it (key col)) |}.
Proof.
  intros Hr. unfold render_cell, shown. rewrite Hr.
  destruct (get_field it (key col)); reflexivity.
Qed.

Lemma inherited_other (k : string) :
  k ∉ inherited_names → inherited k = VUndefined.
Proof.
  unfold inherited_names, inherited. intros Hk.
  destruct (String.eqb_spec k "constructor") as [-> | _].
  { exfalso. apply Hk, list_elem_of_here. }
  destruct (String.eqb_spec k "__proto__") as [-> | _].
  { exfalso. apply Hk, list_elem_of_further, list_elem_of_here. }
  case_bool_decide as Hm; [|reflexivity].
  exfalso. now apply Hk, list_elem_of_further, list_elem_of_further.
Qed.

Lemma shown_missing it (k : string) :
  k ≠ "id" →
  (fields it !! k = None ∧ k ∉ inherited_names)
  ∨ fields it !! k = Some VNull ∨ fields it !! k = Some VUndefined →
  shown it k = "".
Proof.
  intros Hk Hf. unfold shown, get_field.
  destruct (String.eqb_spec k "id") as [|_]; [contradiction|].
  destruct Hf as [[-> Hi] | [-> | ->]]; try reflexivity.
  now rewrite inherited_other.
Qed.

(** An inherited property of a row that has no field of that name is
    shown, not left empty. *)
Lemma shown_inherited it (k : string) :
  k ∈ inherited_names → fields it !! k = None → shown it k ≠ "".
Proof.
  unfold inherited_names, inherited_methods. intros Hk Hf.
  unfold shown, get_field. rewrite Hf.
  repeat (apply elem_of_cons in Hk as [-> | Hk]; [discriminate|]).
  now apply elem_of_nil in Hk.
Qed.

Lemma shown_present it (k : string) :
  get_field it k ≠ VUndefined → get_field it k ≠ VNull →
  shown it k = js_String (get_field it k).
Proof.
  unfold shown. destruct (get_field it k); congruence.
Qed.

Lemma body_unfold p :
  loading p ≠ Some true →
  DataTable p
  = TableDiv
      (map (fun col => {| th_key := key col; th_text := header col |})
           (columns p))
      (map (render_row p) (data_rows p)
       ++ match data_rows p with
          | [] => [NoData (length (columns p)) "No data found"]
          | _ :: _ => []
          end).
Proof.
  intros Hl. unfold DataTable.
  destruct (loading p) as [[|]|]; [congruence | |];
    destruct (data_rows p); reflexivity.
Qed.

Lemma data_rows_kept p (l : list item) :
  filter (fun r => is_data_row r = true) (map (render_row p) l)
  = map (render_row p) l.
Proof.
  induction l as [|it l IH]; [reflexivity|]. simpl.
  rewrite filter_cons_True by reflexivity. now rewrite IH.
Qed.

Lemma rows_match p (l : list item) :
  Forall2 (fun r it => ∃ cur cells, r = Row (id it) cur cells)
          (map (render_row p) l) l.
Proof.
  induction l as [|it l IH]; simpl; constructor; [|exact IH].
  unfold render_row. eauto.
Qed.

Lemma no_data_not_a_row p (l : list item) (n : nat) (s : string) :
  NoData n s ∉ map (render_row p) l.
Proof.
  induction l as [|it l IH]; simpl.
  - apply not_elem_of_nil.
  - intros Hin. apply elem_of_cons in Hin as [Hin | Hin];
      [discriminate Hin | contradiction].
Qed.

Lemma rows_follow_data_holds p : loading p ≠ Some true → rows_follow_data p.
Proof.
  intros Hl. unfold rows_follow_data. rewrite body_unfold by exact Hl.
  simpl. rewrite filter_app, data_rows_kept.
  destruct (data_rows p) as [|it l] eqn:Hd.
  - simpl. rewrite filter_cons_False by (simpl; congruence).
    rewrite filter_nil. constructor.
  - rewrite filter_nil, app_nil_r. apply rows_match.
Qed.

Lemma empty_row_iff_no_data_holds p :
  loading p ≠ Some true → empty_row_iff_no_data p.
Proof.
  intros Hl. unfold empty_row_iff_no_data. rewrite body_unfold by exact Hl.
  simpl. rewrite elem_of_app. split.
  - intros [Hin | Hin]; [now apply no_data_not_a_row in Hin|].
    destruct (data_rows p); [reflexivity | now apply elem_of_nil in Hin].
  - intros ->. right. apply list_elem_of_here.
Qed.


End datatable_properties.


(** A column keyed [constructor] shows the inherited function for a row
    that has no such field. *)
Lemma constructor_column_is_shown :
  shown sample_row "constructor" = "function Object() { [native code] }"
  ∧ fields sample_row !! "constructor" = None.
Proof. split; reflexivity. Qed.


(** ** The category form *)

Section category_form.

Import CategoriesPage.

Implicit Types (st : state) (c e : ProductCategory).

Lemma handleSubmit_data st :
  data (handleSubmit st) = Some (submitData (formData st)).
Proof. unfold handleSubmit. destruct (editing st); reflexivity. Qed.

(** The values the parent select offers. *)
Lemma parentOptions_values st (v : string) :
  v ∈ map fst (parentOptions st)
  ↔ v = ""
    ∨ ∃ c, c ∈ categories st ∧ pc_id c = v
           ∧ ∀ e, editing st = Some e → pc_id c ≠ pc_id e.
Proof.
  unfold parentOptions. simpl. rewrite elem_of_cons.
  apply or_iff_compat_l. rewrite map_map. simpl.
  rewrite list_elem_of_In, in_map_iff. split.
  - intros (c & <- & Hc). apply list_elem_of_In in Hc.
    apply list_elem_of_filter in Hc.
    destruct Hc as [Hne Hc]. exists c. split; [exact Hc|].
    split; [reflexivity|]. intros e He. unfold not_editing in Hne.
    rewrite He in Hne. apply negb_true_iff in Hne.
    now apply String.eqb_neq in Hne.
  - intros (c & Hc & <- & Hne). exists c. split; [reflexivity|].
    apply list_elem_of_In, list_elem_of_filter. split; [|exact Hc].
    unfold not_editing. destruct (editing st) as [e|]; [|reflexivity].
    apply negb_true_iff, String.eqb_neq. now apply Hne.
Qed.

Lemma openEdit_parent_differs c st : parent_differs (openEdit c st).
Proof.
  intros e [= <-] Hc. simpl. unfold self_parented in Hc.
  destruct (pc_parent_id c) as [q|]; simpl; [|discriminate].
  intros Hq. apply or_undefined_Some in Hq as [Hq _].
  destruct (truthy q) eqn:Ht; [congruence|].
  apply truthy_false_iff in Ht. subst q. simpl in Hq. congruence.
Qed.

Lemma step_parent_differs st st' (ev : event) :
  parent_differs st → step st ev = Some st' → parent_differs st'.
Proof.
  intros Hinv Hstep. destruct ev as [|c| |s|s|v|cs]; simpl in Hstep.
  - injection Hstep as <-. intros e He. discriminate He.
  - case_bool_decide; [|discriminate Hstep]. injection Hstep as <-.
    apply openEdit_parent_differs.
  - injection Hstep as <-. intros e He. discriminate He.
  - injection Hstep as <-. exact Hinv.
  - injection Hstep as <-. exact Hinv.
  - case_bool_decide as Hv; [|discriminate Hstep]. injection Hstep as <-.
    intros e He _. simpl in *. intros Hp.
    apply or_undefined_Some in Hp as [-> Hne].
    apply parentOptions_values in Hv as [Hv | (c & _ & Hid & Hc)].
    + now rewrite <- Hv in Hne.
    + apply (Hc e He). exact Hid.
  - injection Hstep as <-. exact Hinv.
Qed.

Lemma run_parent_differs (evs : list event) st st' :
  parent_differs st → run st evs = Some st' → parent_differs st'.
Proof.
  revert st. induction evs as [|ev evs IH]; intros st Hinv Hrun;
    simpl in Hrun.
  - now injection Hrun as <-.
  - destruct (step st ev) as [st1|] eqn:Hstep; [|discriminate Hrun].
    apply (IH st1); [|exact Hrun].
    exact (step_parent_differs st st1 ev Hinv Hstep).
Qed.

Lemma initial_parent_differs : parent_differs initial.
Proof. intros e He. discriminate He. Qed.

End category_form.

(** C10, as stated, fails: a category that the backend already lists as
    its own parent is opened for editing with that parent pre-filled, and
    submitting the form sends the category's own id as [parent_id]. *)
Lemma looped_category_resubmits_itself :
  ¬ (∀ evs, never_own_parent evs).
Proof.
  intros H.
  specialize (H [CategoriesPage.Fetched [looped_category];
                 CategoriesPage.OpenEdit looped_category]).
  unfold never_own_parent in H.
  eapply H; reflexivity.
Qed.

(** C10, amended.  The parent select offers exactly the [None] option
    (empty value) and the fetched categories other than the one being
    edited; the empty value is sent as an absent [parent_id].  Whatever
    happened on the page before, provided the category being edited is
    not already its own parent in the fetched data, submitting the edit
    form does not carry that category's id as [parent_id]. *)
Theorem category_form_parent :
  (∀ st v,
     v ∈ map fst (CategoriesPage.parentOptions st)
     ↔ v = ""
       ∨ ∃ c, c ∈ CategoriesPage.categories st ∧ pc_id c = v
              ∧ ∀ e, CategoriesPage.editing st = Some e → pc_id c ≠ pc_id e)
  ∧ (∀ st d,
       CategoriesPage.parent_id (CategoriesPage.formData st) = "" →
       data (CategoriesPage.handleSubmit st) = Some d →
       CategoriesPage.data_parent_id d = None)
  ∧ (∀ evs st e d,
       CategoriesPage.run CategoriesPage.initial evs = Some st →
       CategoriesPage.editing st = Some e →
       ¬ CategoriesPage.self_parented e →
       data (CategoriesPage.handleSubmit st) = Some d →
       CategoriesPage.data_parent_id d ≠ Some (pc_id e)).
Proof.
  split; [exact parentOptions_values | split].
  - intros st d Hp Hd. rewrite handleSubmit_data in Hd.
    injection Hd as <-. simpl. now rewrite Hp.
  - intros evs st e d Hrun He Hself Hd.
    rewrite handleSubmit_data in Hd. injection Hd as <-. simpl.
    apply (run_parent_differs evs CategoriesPage.initial st
             initial_parent_differs Hrun e He Hself).
Qed.

(** After a self-parented category was opened and closed, the child
    category [b] of [a] is edited and [None] is chosen: the request is a
    [PATCH] to [/categories/b] whose [parent_id] is not [b]. *)
Lemma category_form_parent_example :
  ∃ st,
    CategoriesPage.run CategoriesPage.initial looped_then_child = Some st
    ∧ CategoriesPage.editing st = Some child_category
    ∧ url (CategoriesPage.handleSubmit st) = "/categories/b"
    ∧ ∀ d, data (CategoriesPage.handleSubmit st) = Some d →
           CategoriesPage.data_parent_id d ≠ Some "b".
Proof.
  eexists. split; [reflexivity|]. split; [reflexivity|].
  split; [reflexivity|]. intros d Hd.
  refine (proj2 (proj2 category_form_parent) looped_then_child
            _ child_category d eq_refl eq_refl _ Hd).
  unfold CategoriesPage.self_parented. simpl. discriminate.
Defined.

(** ** Form payloads *)

Lemma text_rule_or_undefined (s : string) : text_rule s (or_undefined s).
Proof.
  split; [intros ->; reflexivity | apply or_undefined_nonempty].
Qed.

Lemma number_rule_parse `{JSNumber} (s : string) :
  number_rule s (RetailersPage.parse_if_truthy s).
Proof.
  unfold RetailersPage.parse_if_truthy. split.
  - intros ->. reflexivity.
  - intros Hs. apply truthy_true_iff in Hs. now rewrite Hs.
Qed.

Lemma retailer_handleSubmit_data `{JSNumber} (st : RetailersPage.state) :
  data (RetailersPage.handleSubmit st)
  = Some (RetailersPage.submitData (RetailersPage.formData st)).
Proof.
  unfold RetailersPage.handleSubmit.
  destruct (RetailersPage.editing st); reflexivity.
Qed.

(** C7.  Submitting the retailer form sends a payload whose [name] and
    [is_active] are the form's, whose [phone], [email] and [address] are
    absent for an empty form value and the form value otherwise, and whose
    [location_lat] and [location_lng] are absent for an empty form value
    and the parsed number otherwise.  Submitting the category form sends
    the form's [name], and [description] and [parent_id] under the same
    empty-to-absent rule.  This holds for creating and for updating. *)
Theorem submit_payload_shape `{JSNumber} :
  (∀ st : RetailersPage.state,
     let f := RetailersPage.formData st in
     ∃ d, data (RetailersPage.handleSubmit st) = Some d
          ∧ RetailersPage.data_name d = RetailersPage.name f
          ∧ RetailersPage.data_is_active d = RetailersPage.is_active f
          ∧ text_rule (RetailersPage.phone f) (RetailersPage.data_phone d)
          ∧ text_rule (RetailersPage.email f) (RetailersPage.data_email d)
          ∧ text_rule (RetailersPage.address f)
                      (RetailersPage.data_address d)
          ∧ number_rule (RetailersPage.location_lat f)
                        (RetailersPage.data_location_lat d)
          ∧ number_rule (RetailersPage.location_lng f)
                        (RetailersPage.data_location_lng d))
  ∧ (∀ st : CategoriesPage.state,
       let f := CategoriesPage.formData st in
       ∃ d, data (CategoriesPage.handleSubmit st) = Some d
            ∧ CategoriesPage.data_name d = CategoriesPage.name f
            ∧ text_rule (CategoriesPage.description f)
                        (CategoriesPage.data_description d)
            ∧ text_rule (CategoriesPage.parent_id f)
                        (CategoriesPage.data_parent_id d)).
Proof.
  split.
  - intros st f. eexists. split; [apply retailer_handleSubmit_data|].
    simpl. repeat split;
      first [ apply text_rule_or_undefined | apply number_rule_parse ].
  - intros st f. eexists. split; [apply handleSubmit_data|].
    simpl. repeat split; apply text_rule_or_undefined.
Qed.

(** The sample retailer form: the request is a [POST] to [/retailers];
    the empty phone, address and longitude are left out and the latitude
    is parsed. *)
Lemma sample_retailer_request :
  RetailersPage.handleSubmit sample_retailer_state
  = apiClient.post "/retailers"
      (RetailersPage.mkPayload integer_numbers
         "Agro Store" None (Some "shop@example.com") None
         (Some (Some 12)) None true).
Proof. reflexivity. Qed.

Lemma submit_payload_example :
  ∃ d, data (RetailersPage.handleSubmit sample_retailer_state) = Some d
       ∧ RetailersPage.data_phone d = None
       ∧ RetailersPage.data_email d = Some "shop@example.com"
       ∧ RetailersPage.data_location_lat d = Some (Some 12)
       ∧ RetailersPage.data_location_lng d = None.
Proof.
  destruct (proj1 (submit_payload_shape (H:=integer_numbers))
              sample_retailer_state)
    as (d & Hd & _ & _ & Hphone & Hemail & _ & Hlat & Hlng).
  exists d. split; [exact Hd|].
  split; [apply Hphone; reflexivity|].
  split; [apply Hemail; discriminate|].
  split; [apply Hlat; discriminate | apply Hlng; reflexivity].
Defined.

(** ** Mutations and the query cache *)

Lemma kopt_inj (a b : option string) : kopt a = kopt b → a = b.
Proof. destruct a, b; simpl; congruence. Qed.

(** Among the application's queries, a key matches a filter key only when
    the two queries are the same. *)
Lemma partialMatchKey_app (q f : app_query) :
  partialMatchKey (key_of q) (key_of f) = bool_decide (q = f).
Proof.
  destruct q, f; simpl;
    repeat case_bool_decide; simplify_eq; try reflexivity;
    try match goal with
        | Hk : kopt _ = kopt _ |- _ => apply kopt_inj in Hk; congruence
        end;
    try congruence.
Qed.

Lemma invalidateQueries_lookup (k : queryKey) (cache : list query_entry)
    (i : nat) :
  invalidateQueries k cache !! i
  = (fun e => if partialMatchKey (entry_key e) k then invalidate e else e)
      <$> cache !! i.
Proof. unfold invalidateQueries. apply lookup_map. Qed.

(** The handlers whose key is fixed mark their list whatever the pages
    hold when they run. *)
Lemma fixed_key_handlers_invalidate `{JSNumber} (p : pages)
    (cache : list query_entry) (i : nat) (e : query_entry) :
  cache !! i = Some e →
  (entry_key e = key_of QCategories →
     ∀ m, m = CategoryCreate ∨ m = CategoryUpdate →
          snd (onSuccess m p cache) !! i = Some (invalidate e))
  ∧ (entry_key e = key_of QProducts →
     ∀ m, m = ProductCreate ∨ m = ProductUpdate →
          snd (onSuccess m p cache) !! i = Some (invalidate e))
  ∧ (entry_key e = key_of QRetailers →
     ∀ m, m = RetailerCreate ∨ m = RetailerUpdate →
          snd (onSuccess m p cache) !! i = Some (invalidate e)).
Proof.
  intros Hi. repeat split; intros Hk m [-> | ->]; simpl;
    rewrite invalidateQueries_lookup, Hi; simpl; now rewrite Hk.
Qed.

(** C6.  A variant is submitted for product [p1]; by the time the request
    succeeds another product [p2] is selected.  The request is a [POST]
    to the URL the variants of [p1] are listed from, yet the success
    handler marks the variants of [p2]: every cache entry of the variants
    of [p1], the list the mutation added a row to, is left exactly as it
    was. *)
Theorem variant_created_for_other_selection `{JSNumber}
    (pg0 pg1 : ProductsForms.page) (p1 p2 : Product)
    (r : request ProductsForms.variantPayload) (cache : list query_entry) :
  ProductsPage.selectedProduct (ProductsForms.st pg0) = Some p1 →
  ProductsPage.editingVariant (ProductsForms.st pg0) = None →
  ProductsForms.handleVariantSubmit pg0 = Some r →
  ProductsPage.selectedProduct (ProductsForms.st pg1) = Some p2 →
  p_id p1 ≠ p_id p2 →
  let after :=
    snd (ProductsPage.createVariantMutation_onSuccess
           (ProductsForms.st pg1) cache) in
  method r = POST
  ∧ url r = url (productsApi.listVariants (D:=unit) (p_id p1))
  ∧ ProductsPage.variantsQuery (ProductsForms.st pg0)
    = QVariants (Some (p_id p1))
  ∧ (∀ i e, cache !! i = Some e →
            entry_key e = key_of (QVariants (Some (p_id p1))) →
            after !! i = Some e)
  ∧ (∀ i e, cache !! i = Some e →
            entry_key e = key_of (QVariants (Some (p_id p2))) →
            after !! i = Some (invalidate e)).
Proof.
  intros Hs0 He0 Hr Hs1 Hne after.
  unfold ProductsForms.handleVariantSubmit in Hr. rewrite He0, Hs0 in Hr.
  injection Hr as <-.
  split; [reflexivity|]. split; [reflexivity|]. split.
  { unfold ProductsPage.variantsQuery. now rewrite Hs0. }
  assert (Hafter : after
                   = invalidateQueries (key_of (QVariants (Some (p_id p2))))
                       cache).
  { unfold after, ProductsPage.createVariantMutation_onSuccess. simpl.
    now rewrite Hs1. }
  rewrite Hafter. split; intros i e Hi Hk;
    rewrite invalidateQueries_lookup, Hi;
    unfold fmap, option_fmap, option_map; cbv beta iota;
    rewrite Hk, partialMatchKey_app; case_bool_decide; congruence.
Qed.

(** Product [p1] is selected and the variant form submitted; the form is
    cancelled and the variants of [p2] are opened before the request
    succeeds.  The cached variants of [p1] stay as they were. *)
Lemma variant_created_for_other_selection_example :
  url <$> ProductsForms.handleVariantSubmit variant_form_submitted
  = Some "/products/p1/variants"
  ∧ isInvalidated
    <$> snd (ProductsPage.createVariantMutation_onSuccess
               (ProductsForms.st moved_to_other_product) sample_cache)
    = [false; false; true; false].
Proof.
  destruct (ProductsForms.handleVariantSubmit variant_form_submitted)
    as [r|] eqn:Hr; [|discriminate Hr].
  destruct (variant_created_for_other_selection (H:=integer_numbers)
              variant_form_submitted moved_to_other_product
              sample_product second_product r sample_cache
              eq_refl eq_refl Hr eq_refl ltac:(discriminate))
    as (_ & Hu & _ & Hp1 & Hp2).
  split; [simpl; now rewrite Hu|].
  pose proof (Hp1 1%nat _ eq_refl eq_refl) as H1.
  pose proof (Hp2 2%nat _ eq_refl eq_refl) as H2.
  reflexivity.
Defined.

(** * Further properties of the embedded code *)

(** ** The client's interceptors together *)

(** X1.  Once the response interceptor has handled a 401, the request
    interceptor attaches no header any more: it returns every config
    unchanged.  Handling the 401 keeps every other local-storage key and,
    done a second time, changes nothing. *)
Theorem signed_out_after_401 {A D} (e : Client.error) (b : browser)
    (config : request D) :
  Client.status <$> Client.err_response e = Some 401 →
  let b' := fst (Client.responseErrorInterceptor (A:=A) e b) in
  Client.requestInterceptor b' config = config
  ∧ (∀ k, k ≠ "admin_token" → getItem k b' = getItem k b)
  ∧ fst (Client.responseErrorInterceptor (A:=A) e b') = b'.
Proof.
  intros H401. apply unauthorized_spec in H401.
  unfold Client.responseErrorInterceptor. simpl. rewrite H401. simpl.
  split; [|split].
  - unfold Client.requestInterceptor, getItem. simpl.
    now rewrite lookup_delete_eq.
  - intros k Hk. unfold getItem. simpl. now apply lookup_delete_ne.
  - unfold set_location, removeItem. simpl. f_equal.
    apply delete_id, lookup_delete_eq.
Qed.

Lemma signed_out_after_401_example :
  Client.requestInterceptor
    (fst (Client.responseErrorInterceptor (A:=unit)
            unauthorized_error stored_token))
    plain_request
  = plain_request.
Proof.
  apply (signed_out_after_401 (A:=unit) unauthorized_error stored_token
           plain_request eq_refl).
Defined.

(** X2.  The request interceptor is idempotent, and its result depends on
    the browser only through the value stored under [admin_token]; with a
    non-empty token it replaces an [Authorization] header the caller put
    on the config. *)
Theorem request_interceptor_idempotent {D} (b b2 : browser)
    (config : request D) :
  Client.requestInterceptor b (Client.requestInterceptor b config)
  = Client.requestInterceptor b config
  ∧ (getItem "admin_token" b = getItem "admin_token" b2 →
     Client.requestInterceptor b config = Client.requestInterceptor b2 config)
  ∧ (∀ token own,
       getItem "admin_token" b = Some token → token ≠ "" →
       headers config !! "Authorization" = Some own →
       headers (Client.requestInterceptor b config) !! "Authorization"
       = Some ("Bearer " ++ token)).
Proof.
  unfold Client.requestInterceptor. split; [|split].
  - destruct (getItem "admin_token" b) as [t|]; [|reflexivity].
    destruct (truthy t); [|reflexivity]. simpl.
    now rewrite insert_insert_eq.
  - intros <-. reflexivity.
  - intros token own -> Hne _. apply truthy_true_iff in Hne. rewrite Hne.
    simpl. apply lookup_insert_eq.
Qed.

Lemma request_interceptor_idempotent_example :
  headers (Client.requestInterceptor stored_token request_with_own_header)
    !! "Authorization" = Some "Bearer t0k3n".
Proof.
  refine (proj2 (proj2 (request_interceptor_idempotent
                          stored_token stored_token request_with_own_header))
            "t0k3n" "Basic abc" eq_refl _ eq_refl).
  discriminate.
Defined.

(** X3.  The base URL of the second copy of the client is never empty:
    it is [/api/admin] or starts with [http].  Feeding it back as the
    variable's value gives the same base URL. *)
Theorem baseURL_B_normal (env : option string) :
  (Client.baseURL_B env = "/api/admin"
   ∨ startsWith (Client.baseURL_B env) "http" = true)
  ∧ Client.baseURL_B env ≠ ""
  ∧ Client.baseURL_B (Some (Client.baseURL_B env)) = Client.baseURL_B env.
Proof.
  assert (Hn : Client.baseURL_B env = "/api/admin"
               ∨ startsWith (Client.baseURL_B env) "http" = true).
  { rewrite baseURL_B_unfold.
    destruct (String.eqb_spec (Client.baseURL_A env) "/api/admin") as [He|He];
      simpl; [now left|].
    destruct (startsWith (Client.baseURL_A env) "http") eqn:Hp; simpl;
      [now right | right; reflexivity]. }
  assert (Hne : Client.baseURL_B env ≠ "").
  { destruct Hn as [-> | Hp]; [discriminate|].
    intros He. rewrite He in Hp. discriminate Hp. }
  split; [exact Hn | split; [exact Hne|]].
  rewrite (baseURL_B_unfold (Some _)).
  assert (HA : Client.baseURL_A (Some (Client.baseURL_B env))
               = Client.baseURL_B env).
  { unfold Client.baseURL_A, or_default.
    apply truthy_true_iff in Hne. now rewrite Hne. }
  rewrite HA. destruct Hn as [-> | Hp]; [reflexivity|].
  rewrite Hp. simpl. now rewrite andb_false_r.
Qed.

(** X4.  Whatever call of the API modules is sent, whatever default
    headers the library merges in and whatever the browser holds, the
    request leaving the request interceptor has the call's method, URL,
    query parameters and body and carries [Content-Type:
    application/json]; its [Authorization] header is the bearer header
    when a non-empty token is stored and the library's default (if any)
    otherwise; every other header is the library's default. *)
Theorem api_request_through_interceptor {D} (lib : gmap string string)
    (c : api_call D) (b : browser) :
  let r := Client.requestInterceptor b (merge_library_headers lib (issue c)) in
  method r = method (issue c) ∧ url r = url (issue c)
  ∧ params r = params (issue c) ∧ data r = data (issue c)
  ∧ headers r !! "Content-Type" = Some "application/json"
  ∧ headers r !! "Authorization"
    = match getItem "admin_token" b ≫= or_undefined with
      | Some t => Some ("Bearer " ++ t)
      | None => lib !! "Authorization"
      end
  ∧ ∀ h, h ≠ "Content-Type" → h ≠ "Authorization" →
         headers r !! h = lib !! h.
Proof.
  assert (Hh : headers (issue c) = apiClient.instance_headers)
    by (destruct c; reflexivity).
  assert (Hct : (apiClient.instance_headers ∪ lib) !! "Content-Type"
                = Some "application/json")
    by (apply lookup_union_Some_l; reflexivity).
  assert (Hother : ∀ h, h ≠ "Content-Type" →
                        (apiClient.instance_headers ∪ lib) !! h = lib !! h).
  { intros h Hne. apply lookup_union_r.
    unfold apiClient.instance_headers. apply lookup_singleton_ne. congruence. }
  unfold Client.requestInterceptor, or_undefined.
  destruct (getItem "admin_token" b) as [t|]; simpl;
    [destruct (truthy t); simpl|]; rewrite ?Hh;
    repeat split; try reflexivity; try exact Hct;
    try (apply Hother; discriminate);
    try (intros h H1 H2; rewrite ?lookup_insert_ne by congruence;
         now apply Hother).
  - rewrite lookup_insert_ne by discriminate. exact Hct.
  - apply lookup_insert_eq.
Qed.

(** With the [Accept] default of the library and a stored token. *)
Lemma api_request_through_interceptor_example :
  let r := Client.requestInterceptor stored_token
             (merge_library_headers
                {[ "Accept" := "application/json, text/plain, */*" ]}
                (issue (OrdersGet (D:=unit) "42"))) in
  headers r !! "Accept" = Some "application/json, text/plain, */*"
  ∧ headers r !! "Content-Type" = Some "application/json"
  ∧ headers r !! "Authorization" = Some "Bearer t0k3n".
Proof.
  destruct (api_request_through_interceptor
              {[ "Accept" := "application/json, text/plain, */*" ]}
              (OrdersGet (D:=unit) "42") stored_token)
    as (_ & _ & _ & _ & Hct & Hauth & Hother).
  split; [|split; [exact Hct | exact Hauth]].
  rewrite Hother by discriminate. reflexivity.
Defined.

(** ** The API modules: bodies, parameters and addresses *)

(** X5.  Among the calls of the four API modules, exactly the [GET]
    requests have no body, and only [GET] requests carry query
    parameters. *)
Theorem api_body_by_verb {D} (c : api_call D) :
  (method (issue c) = GET ↔ data (issue c) = None)
  ∧ (method (issue c) ≠ GET → params (issue c) = []).
Proof.
  destruct c; simpl; (split; [split|]); try reflexivity; try discriminate;
    try (intros Hc; now contradiction Hc).
Qed.

Lemma append_cons (a : ascii) (s t : string) :
  String a s ++ t = String a (s ++ t).
Proof. reflexivity. Qed.

Lemma append_inv_head (p a b : string) : p ++ a = p ++ b → a = b.
Proof.
  induction p as [|x p IH]; [trivial|].
  rewrite !append_cons. intros [= H]. now apply IH.
Qed.

Lemma append_same_length (a b c d : string) :
  String.length a = String.length b → a ++ c = b ++ d → a = b.
Proof.
  revert b. induction a as [|x a IH]; intros [|y b] Hl Heq;
    try discriminate Hl; [reflexivity|].
  rewrite !append_cons in Heq. injection Heq as -> Heq.
  f_equal. apply IH; [now injection Hl | exact Heq].
Qed.

Lemma instantiate_lit (s : string) (t : resource_path) (id : string) :
  instantiate (Lit s :: t) id = "/" ++ s ++ instantiate t id.
Proof. reflexivity. Qed.

Lemma instantiate_param (t : resource_path) (id : string) :
  instantiate (Param :: t) id = "/" ++ id ++ instantiate t id.
Proof. reflexivity. Qed.

Lemma instantiate_length_le (t : resource_path) (id1 id2 : string) :
  (String.length id1 ≤ String.length id2)%nat →
  (String.length (instantiate t id1) ≤ String.length (instantiate t id2))%nat.
Proof.
  intros Hl. induction t as [|[s|] t IH]; [reflexivity | |].
  - rewrite !instantiate_lit, !length_append. lia.
  - rewrite !instantiate_param, !length_append. lia.
Qed.

Lemma instantiate_length_lt (t : resource_path) (id1 id2 : string) :
  Param ∈ t →
  (String.length id1 < String.length id2)%nat →
  (String.length (instantiate t id1) < String.length (instantiate t id2))%nat.
Proof.
  intros Hin Hl. induction t as [|[s|] t IH].
  - now apply elem_of_nil in Hin.
  - apply elem_of_cons in Hin as [Hin | Hin]; [discriminate Hin|].
    specialize (IH Hin). rewrite !instantiate_lit, !length_append. lia.
  - pose proof (instantiate_length_le t id1 id2 ltac:(lia)).
    rewrite !instantiate_param, !length_append. lia.
Qed.

(** A resource path with a parameter is instantiated to different URLs by
    different values. *)
Lemma instantiate_inj (t : resource_path) (id1 id2 : string) :
  Param ∈ t → instantiate t id1 = instantiate t id2 → id1 = id2.
Proof.
  intros Hin Heq.
  assert (Hlen : String.length id1 = String.length id2).
  { pose proof (f_equal String.length Heq) as Hl.
    destruct (Nat.lt_trichotomy (String.length id1) (String.length id2))
      as [Hlt | [He | Hgt]]; [|exact He|].
    - pose proof (instantiate_length_lt t id1 id2 Hin Hlt). lia.
    - pose proof (instantiate_length_lt t id2 id1 Hin Hgt). lia. }
  induction t as [|[s|] t IH].
  - now apply elem_of_nil in Hin.
  - apply elem_of_cons in Hin as [Hin | Hin]; [discriminate Hin|].
    apply IH; [exact Hin|]. rewrite !instantiate_lit in Heq.
    apply (append_inv_head "/") in Heq. now apply append_inv_head in Heq.
  - rewrite !instantiate_param in Heq.
    apply (append_inv_head "/") in Heq.
    now apply append_same_length in Heq.
Qed.

(** X6.  Two calls against the same resource path with a path parameter
    reach the same URL only for the same parameter value: different ids
    never address the same resource. *)
Theorem api_url_identifies_id {D} (c1 c2 : api_call D) :
  path_of c1 = path_of c2 → Param ∈ path_of c1 →
  url (issue c1) = url (issue c2) →
  path_arg c1 = path_arg c2.
Proof.
  intros Hp Hin Hu. rewrite !issue_url, <- Hp in Hu.
  now apply (instantiate_inj (path_of c1)).
Qed.

Lemma api_url_identifies_id_example :
  url (issue (CategoriesUpdate "a" tt)) ≠ url (issue (CategoriesUpdate "b" tt)).
Proof.
  intros Hu.
  assert (Hin : Param ∈ path_of (CategoriesUpdate "a" tt))
    by (simpl; apply list_elem_of_further, list_elem_of_here).
  pose proof (api_url_identifies_id (CategoriesUpdate "a" tt)
                (CategoriesUpdate "b" tt) eq_refl Hin Hu) as Hid.
  discriminate Hid.
Defined.

(** ** Labels looked up in fetched lists *)

Lemma find_by_id_absent {X} (get_id : X → string) (i : string) (l : list X) :
  (∀ x, x ∈ l → get_id x ≠ i) → find_by_id get_id (Some i) l = None.
Proof.
  simpl. induction l as [|y l IH]; intros Hall; [reflexivity|]. simpl.
  destruct (String.eqb_spec (get_id y) i) as [He|_].
  - exfalso. apply (Hall y); [apply list_elem_of_here | exact He].
  - apply IH. intros x Hx. apply Hall. now apply list_elem_of_further.
Qed.

Lemma find_by_id_unique {X} (get_id : X → string) (l : list X) (x : X) :
  unique_ids get_id l → x ∈ l →
  find_by_id get_id (Some (get_id x)) l = Some x.
Proof.
  unfold unique_ids. simpl. induction l as [|y l IH]; intros Hnd Hx.
  - now apply elem_of_nil in Hx.
  - simpl in Hnd. apply NoDup_cons in Hnd as [Hy Hnd]. simpl.
    apply elem_of_cons in Hx as [-> | Hx].
    + now rewrite String.eqb_refl.
    + destruct (String.eqb_spec (get_id y) (get_id x)) as [He|_];
        [|now apply IH].
      exfalso. apply Hy. rewrite He. apply list_elem_of_In, in_map.
      now apply list_elem_of_In.
Qed.

Lemma or_default_nonempty (o : option string) (d : string) :
  d ≠ "" → or_default o d ≠ "".
Proof.
  intros Hd. unfold or_default. destruct o as [s|]; [|exact Hd].
  destruct (truthy s) eqn:Ht; [now apply truthy_true_iff | exact Hd].
Qed.

(** X7.  The category label shown in the tables is never empty.  It is
    [-] when the id is absent or names no fetched category; for a fetched
    category with a non-empty name in a list with distinct ids it is that
    category's name.  The Parent column of the categories table and
    [getCategoryName] of the products table compute the same label. *)
Theorem category_label (categories : list ProductCategory) :
  (∀ id, getCategoryName categories id ≠ "")
  ∧ getCategoryName categories None = "-"
  ∧ (∀ i, (∀ c, c ∈ categories → pc_id c ≠ i) →
          getCategoryName categories (Some i) = "-")
  ∧ (∀ c, unique_ids pc_id categories → c ∈ categories → pc_name c ≠ "" →
          getCategoryName categories (Some (pc_id c)) = pc_name c)
  ∧ (∀ item, parentLabel categories item
             = getCategoryName categories (pc_parent_id item)).
Proof.
  split; [|split; [|split; [|split]]].
  - intros id. apply or_default_nonempty. discriminate.
  - reflexivity.
  - intros i Hi. unfold getCategoryName.
    now rewrite find_by_id_absent.
  - intros c Hu Hc Hn. unfold getCategoryName.
    rewrite find_by_id_unique by assumption. simpl.
    apply truthy_true_iff in Hn. now rewrite Hn.
  - reflexivity.
Qed.

Lemma category_label_example :
  getCategoryName [root_category; child_category] (Some "b") = "Minerals"
  ∧ getCategoryName [root_category; child_category] (Some "zz") = "-".
Proof.
  destruct (category_label [root_category; child_category])
    as (_ & _ & Habs & Hfound & _).
  split.
  - apply (Hfound child_category).
    + unfold unique_ids. simpl. apply NoDup_cons. split.
      * intros Hin. apply elem_of_cons in Hin as [Hin | Hin];
          [discriminate Hin | now apply elem_of_nil in Hin].
      * apply NoDup_singleton.
    + apply list_elem_of_further, list_elem_of_here.
    + discriminate.
  - apply Habs. intros c Hc.
    apply elem_of_cons in Hc as [-> | Hc]; [discriminate|].
    apply elem_of_cons in Hc as [-> | Hc]; [discriminate|].
    now apply elem_of_nil in Hc.
Defined.

(** X8.  [getVariantDisplay] shows an id that names no fetched variant as
    it is, and a fetched variant (in a list with distinct ids) as its SKU,
    [ - ] and its name, with [Unnamed] for a missing or empty name. *)
Theorem variant_display `{JSNumber} (products : list ProductVariant) :
  (∀ i, (∀ v, v ∈ products → pv_id v ≠ i) →
        getVariantDisplay products i = i)
  ∧ (∀ v, unique_ids pv_id products → v ∈ products →
          getVariantDisplay products (pv_id v)
          = pv_sku v ++ " - " ++ match pv_name v with
                                 | Some n => if decide (n = "") then "Unnamed"
                                             else n
                                 | None => "Unnamed"
                                 end).
Proof.
  split.
  - intros i Hi. unfold getVariantDisplay. now rewrite find_by_id_absent.
  - intros v Hu Hv. unfold getVariantDisplay.
    rewrite find_by_id_unique by assumption. unfold variantText, or_default.
    destruct (pv_name v) as [n|]; [|reflexivity].
    destruct (decide (n = "")) as [-> | Hn]; [reflexivity|].
    apply truthy_true_iff in Hn. now rewrite Hn.
Qed.

Lemma variant_display_example :
  getVariantDisplay [bolus; drench] "v2" = "DW-500 - Unnamed"
  ∧ getVariantDisplay [bolus; drench] "v9" = "v9".
Proof.
  destruct (variant_display (H:=integer_numbers) [bolus; drench])
    as [Habs Hfound].
  split.
  - apply (Hfound drench).
    + unfold unique_ids. simpl. apply NoDup_cons. split.
      * intros Hin. apply elem_of_cons in Hin as [Hin | Hin];
          [discriminate Hin | now apply elem_of_nil in Hin].
      * apply NoDup_singleton.
    + apply list_elem_of_further, list_elem_of_here.
  - apply Habs. intros v Hv.
    apply elem_of_cons in Hv as [-> | Hv]; [discriminate|].
    apply elem_of_cons in Hv as [-> | Hv]; [discriminate|].
    now apply elem_of_nil in Hv.
Defined.

(** ** The query function of [all-variants] *)

Section all_variants.

Context `{JSNumber} (getVariants : string → option (list ProductVariant)).

Import AllVariants.

Lemma collect_all (ps : list Product) (acc : list ProductVariant)
    (log : list sent) :
  Forall (answered getVariants) ps →
  collect getVariants ps acc log
  = (Some (acc ++ concat (map (variantsData getVariants) ps))%list,
     (log ++ map variantsRequest ps)%list).
Proof.
  revert acc log. induction ps as [|p ps IH]; intros acc log Hall; simpl.
  - now rewrite !app_nil_r.
  - apply Forall_cons in Hall as [[vs Hp] Hall].
    unfold variantsData at 1. rewrite Hp. simpl in Hp. rewrite Hp. simpl.
    rewrite IH by exact Hall. now rewrite <- !app_assoc.
Qed.

Lemma collect_stops (ps1 ps2 : list Product) (p : Product)
    (acc : list ProductVariant) (log : list sent) :
  Forall (answered getVariants) ps1 → ¬ answered getVariants p →
  collect getVariants (ps1 ++ p :: ps2)%list acc log
  = (None, (log ++ map variantsRequest (ps1 ++ [p]))%list).
Proof.
  revert acc log. induction ps1 as [|q ps1 IH]; intros acc log Hall Hp; simpl.
  - destruct (getVariants _) as [vs|] eqn:Hg; [|reflexivity].
    exfalso. apply Hp. unfold answered. simpl. rewrite Hg. now exists vs.
  - apply Forall_cons in Hall as [[vs Hq] Hall]. simpl in Hq. rewrite Hq.
    rewrite IH by assumption. now rewrite <- !app_assoc.
Qed.

(** X9.  One run of the query function of [all-variants] sends one
    request for the product list and then one per product, in list order,
    stopping at the first request that fails.  When all succeed the run
    returns the variants of the products concatenated in product order;
    when the product list or the variants of some product cannot be read,
    the run fails and has sent no request for the products after the
    failing one.  (A failed run is what the query client retries.) *)
Theorem all_variants_query (getProducts : string → option (list Product)) :
  (getProducts "/products" = None →
     queryFn getProducts getVariants = (None, [(GET, "/products")]))
  ∧ (∀ ps, getProducts "/products" = Some ps →
       Forall (answered getVariants) ps →
       queryFn getProducts getVariants
       = (Some (concat (map (variantsData getVariants) ps)),
          (GET, "/products") :: map variantsRequest ps))
  ∧ (∀ ps1 p ps2,
       getProducts "/products" = Some (ps1 ++ p :: ps2)%list →
       Forall (answered getVariants) ps1 → ¬ answered getVariants p →
       queryFn getProducts getVariants
       = (None,
          (GET, "/products") :: map variantsRequest (ps1 ++ [p])%list)).
Proof.
  unfold queryFn. simpl. split; [|split].
  - intros ->. reflexivity.
  - intros ps -> Hall. now rewrite collect_all.
  - intros ps1 p ps2 -> Hall Hp. now rewrite collect_stops.
Qed.

End all_variants.

Lemma all_variants_query_example :
  AllVariants.queryFn two_products variants_of_p1_only
  = (None, [(GET, "/products"); (GET, "/products/p1/variants");
            (GET, "/products/p2/variants")])
  ∧ AllVariants.queryFn two_products (fun _ => Some [bolus])
    = (Some [bolus; bolus],
       [(GET, "/products"); (GET, "/products/p1/variants");
        (GET, "/products/p2/variants")]).
Proof.
  split.
  - apply (proj2 (proj2 (all_variants_query (H:=integer_numbers)
                           variants_of_p1_only two_products))
             [sample_product] second_product [] eq_refl).
    + constructor; [eexists; reflexivity | constructor].
    + intros [vs Hvs]. discriminate Hvs.
  - apply (proj1 (proj2 (all_variants_query (H:=integer_numbers)
                           (fun _ => Some [bolus]) two_products))
             [sample_product; second_product] eq_refl).
    repeat (constructor; [eexists; reflexivity|]). constructor.
Defined.

(** ** Opening a form and submitting it *)

Lemma or_undefined_or_default (o : option string) :
  or_undefined (or_default o "") = normalized o.
Proof.
  destruct o as [s|]; [|reflexivity]. simpl.
  destruct (truthy s) eqn:Ht; [reflexivity|].
  apply truthy_false_iff in Ht. now subst s.
Qed.

Lemma normalized_id (o : option string) : o ≠ Some "" → normalized o = o.
Proof.
  destruct o as [s|]; [|reflexivity]. intros Hs. simpl.
  apply or_undefined_nonempty. congruence.
Qed.

(** X10.  Opening a category for editing and submitting the form
    untouched sends a [PATCH] to [/categories/{id}] of that category with
    its name, and with its description and parent id where an empty
    string has become absent; a category without empty optional fields is
    sent back exactly as it was fetched. *)
Theorem category_edit_round_trip (c : ProductCategory)
    (st : CategoriesPage.state) :
  CategoriesPage.handleSubmit (CategoriesPage.openEdit c st)
  = apiClient.patch ("/categories/" ++ pc_id c)
      {| CategoriesPage.data_name := pc_name c;
         CategoriesPage.data_description := normalized (pc_description c);
         CategoriesPage.data_parent_id := normalized (pc_parent_id c) |}
  ∧ (pc_description c ≠ Some "" → pc_parent_id c ≠ Some "" →
     data (CategoriesPage.handleSubmit (CategoriesPage.openEdit c st))
     = Some {| CategoriesPage.data_name := pc_name c;
               CategoriesPage.data_description := pc_description c;
               CategoriesPage.data_parent_id := pc_parent_id c |}).
Proof.
  assert (Heq : CategoriesPage.handleSubmit (CategoriesPage.openEdit c st)
    = apiClient.patch ("/categories/" ++ pc_id c)
        {| CategoriesPage.data_name := pc_name c;
           CategoriesPage.data_description := normalized (pc_description c);
           CategoriesPage.data_parent_id := normalized (pc_parent_id c) |}).
  { unfold CategoriesPage.handleSubmit, CategoriesPage.submitData. simpl.
    now rewrite !or_undefined_or_default. }
  split; [exact Heq|]. intros Hd Hp. rewrite Heq. simpl.
  now rewrite !normalized_id.
Qed.

Lemma category_edit_round_trip_example :
  data (CategoriesPage.handleSubmit
          (CategoriesPage.openEdit child_category CategoriesPage.initial))
  = Some {| CategoriesPage.data_name := "Minerals";
            CategoriesPage.data_description := Some "salts";
            CategoriesPage.data_parent_id := Some "a" |}.
Proof.
  apply (proj2 (category_edit_round_trip child_category
                  CategoriesPage.initial)); discriminate.
Defined.

Lemma num_text_reads_back `{JSNumber} (o : option num) :
  RetailersForm.reads_back o →
  RetailersPage.parse_if_truthy (num_text o) = o.
Proof.
  intros Hr. destruct o as [n|]; [|reflexivity].
  destruct (Hr n eq_refl) as [Hne Hp].
  unfold num_text, RetailersPage.parse_if_truthy. simpl.
  apply truthy_true_iff in Hne. now rewrite !Hne, Hp.
Qed.

(** X11.  Opening a retailer for editing and submitting the form untouched
    sends a [PATCH] to [/retailers/{id}] with the retailer's name and
    active flag, its phone, email and address with an empty string turned
    absent, and, provided each coordinate it has is printed as a non-empty
    text from which [parseFloat] reads it back, its coordinates. *)
Theorem retailer_edit_round_trip `{JSNumber} (r : Retailer)
    (st : RetailersPage.state) :
  RetailersForm.reads_back (r_location_lat r) →
  RetailersForm.reads_back (r_location_lng r) →
  RetailersPage.handleSubmit (RetailersForm.openEdit r st)
  = apiClient.patch ("/retailers/" ++ r_id r)
      {| RetailersPage.data_name := r_name r;
         RetailersPage.data_phone := normalized (r_phone r);
         RetailersPage.data_email := normalized (r_email r);
         RetailersPage.data_address := normalized (r_address r);
         RetailersPage.data_location_lat := r_location_lat r;
         RetailersPage.data_location_lng := r_location_lng r;
         RetailersPage.data_is_active := r_is_active r |}.
Proof.
  intros Hlat Hlng.
  unfold RetailersPage.handleSubmit, RetailersPage.submitData. simpl.
  now rewrite !or_undefined_or_default, !num_text_reads_back.
Qed.

Lemma retailer_edit_round_trip_example :
  RetailersPage.handleSubmit
    (RetailersForm.openEdit sample_retailer sample_retailer_state)
  = apiClient.patch "/retailers/r7"
      (RetailersPage.mkPayload integer_numbers "Agro Store" None None
         (Some "Main road") (Some (Some 12)) None true).
Proof.
  apply (retailer_edit_round_trip (H:=integer_numbers) sample_retailer
           sample_retailer_state).
  - intros n [= <-]. split; [discriminate | reflexivity].
  - intros n Hn. discriminate Hn.
Defined.

(** ** The category page along its events *)

Lemma step_editing_means_open (st st' : CategoriesPage.state)
    (ev : CategoriesPage.event) :
  editing_means_open st → CategoriesPage.step st ev = Some st' →
  editing_means_open st'.
Proof.
  unfold editing_means_open. intros Hinv Hstep.
  destruct ev; simpl in Hstep; repeat case_bool_decide;
    try discriminate Hstep; injection Hstep as <-; simpl;
    first [ exact Hinv | congruence ].
Qed.

(** X12.  Along every sequence of events of the category page, a category
    is being edited only while the modal is open; and after either
    mutation's success handler the modal is closed, nothing is being
    edited, and the form contents and the fetched list are as before. *)
Theorem category_page_editing_open (evs : list CategoriesPage.event)
    (st : CategoriesPage.state) (cache : list query_entry) :
  CategoriesPage.run CategoriesPage.initial evs = Some st →
  editing_means_open st
  ∧ ∀ h, h = CategoriesPage.createMutation_onSuccess
         ∨ h = CategoriesPage.updateMutation_onSuccess →
         let st' := fst (h st cache) in
         CategoriesPage.modalOpen st' = false
         ∧ CategoriesPage.editing st' = None
         ∧ CategoriesPage.formData st' = CategoriesPage.formData st
         ∧ CategoriesPage.categories st' = CategoriesPage.categories st.
Proof.
  intros Hrun. split.
  - assert (Hi : editing_means_open CategoriesPage.initial)
      by (intros He; now contradiction He).
    revert Hrun Hi. generalize CategoriesPage.initial as s0.
    induction evs as [|ev evs IH]; intros s0 Hrun Hi; simpl in Hrun.
    + now injection Hrun as <-.
    + destruct (CategoriesPage.step s0 ev) as [s1|] eqn:Hstep;
        [|discriminate Hrun].
      apply (IH s1 Hrun). exact (step_editing_means_open s0 s1 ev Hi Hstep).
  - intros h [-> | ->]; simpl; repeat split.
Qed.

Lemma category_page_editing_open_example :
  ∃ st,
    CategoriesPage.run CategoriesPage.initial
      [CategoriesPage.Fetched [root_category; child_category];
       CategoriesPage.OpenEdit child_category;
       CategoriesPage.ChangeName "Salts"] = Some st
    ∧ CategoriesPage.editing st = Some child_category
    ∧ CategoriesPage.modalOpen st = true.
Proof.
  eexists. split; [reflexivity|]. split; [reflexivity|].
  refine (proj1 (category_page_editing_open
                   [CategoriesPage.Fetched [root_category; child_category];
                    CategoriesPage.OpenEdit child_category;
                    CategoriesPage.ChangeName "Salts"] _ [] eq_refl) _).
  discriminate.
Defined.

(** ** The product and variant forms *)

Section products_forms.

Context `{JSNumber}.

Import ProductsForms.

Lemma step_untouched (pg : page) (ev : event) :
  untouched_fields pg → untouched_fields (step pg ev).
Proof.
  unfold untouched_fields. intros [Hd Hu].
  destruct ev; simpl; split; first [ exact Hd | exact Hu | reflexivity ].
Qed.

Lemma run_untouched (evs : list event) (pg : page) :
  untouched_fields pg → untouched_fields (run pg evs).
Proof.
  unfold run. revert pg. induction evs as [|ev evs IH]; intros pg Hpg; simpl.
  - exact Hpg.
  - apply IH. now apply step_untouched.
Qed.

Lemma normalized_bind {X} (e : option X) (f : X → option string) :
  or_undefined (or_default (e ≫= f) "") = normalized (e ≫= f).
Proof. apply or_undefined_or_default. Qed.

(** X13.  The product modal has no input for the description and the
    variant modal none for the unit type.  Hence, along every sequence of
    events of the products page, a submitted product carries the
    description of the product being edited (an empty one turned absent)
    and none at all when a product is created; likewise for the unit type
    of a submitted variant. *)
Theorem product_forms_untouched (evs : list event) :
  let pg := run initial evs in
  (∃ d, data (handleProductSubmit pg) = Some d
        ∧ data_description d
          = normalized (ProductsPage.editingProduct (st pg) ≫= p_description)
        ∧ (method (handleProductSubmit pg) = POST →
           data_description d = None))
  ∧ (∀ r, handleVariantSubmit pg = Some r →
       ∃ d, data r = Some d
            ∧ data_unit_type d
              = normalized
                  (ProductsPage.editingVariant (st pg) ≫= pv_unit_type)
            ∧ (method r = POST → data_unit_type d = None)).
Proof.
  intros pg.
  assert (Hinv : untouched_fields pg)
    by (apply run_untouched; split; reflexivity).
  destruct Hinv as [Hd Hu]. split.
  - unfold handleProductSubmit.
    destruct (ProductsPage.editingProduct (st pg)) as [e|] eqn:He;
      eexists; (split; [reflexivity|]); simpl; rewrite Hd;
      (split; [apply or_undefined_or_default|]).
    + discriminate.
    + reflexivity.
  - intros r Hr. unfold handleVariantSubmit in Hr.
    destruct (ProductsPage.editingVariant (st pg)) as [e|] eqn:He.
    + injection Hr as <-. eexists. split; [reflexivity|]. simpl. rewrite Hu.
      split; [apply or_undefined_or_default | discriminate].
    + destruct (ProductsPage.selectedProduct (st pg)) as [p|];
        [|discriminate Hr].
      injection Hr as <-. eexists. split; [reflexivity|]. simpl. rewrite Hu.
      split; reflexivity.
Qed.

(** X14.  Submitting the variant form fails exactly when a variant is
    being created while no product is selected.  Otherwise it sends a
    [PATCH] to [/products/variants/{id}] of the variant being edited, or
    a [POST] to [/products/{id}/variants] of the selected product, the URL
    the variants list is read from; name and unit size follow the
    empty-to-absent rule and the base price is absent when empty and
    parsed otherwise. *)
Theorem variant_submit (pg : page) :
  (handleVariantSubmit pg = None
   ↔ ProductsPage.editingVariant (st pg) = None
     ∧ ProductsPage.selectedProduct (st pg) = None)
  ∧ (∀ r, handleVariantSubmit pg = Some r →
       (∀ e, ProductsPage.editingVariant (st pg) = Some e →
             method r = PATCH ∧ url r = "/products/variants/" ++ pv_id e)
       ∧ (∀ p, ProductsPage.editingVariant (st pg) = None →
               ProductsPage.selectedProduct (st pg) = Some p →
               method r = POST
               ∧ url r = url (productsApi.listVariants (D:=unit) (p_id p)))
       ∧ ∃ d, data r = Some d
              ∧ data_sku d = variantForm.sku (variantFormData pg)
              ∧ text_rule (variantForm.name (variantFormData pg))
                          (data_vname d)
              ∧ text_rule (variantForm.unit_size (variantFormData pg))
                          (data_unit_size d)
              ∧ number_rule (variantForm.base_price (variantFormData pg))
                            (data_base_price d)).
Proof.
  unfold handleVariantSubmit. split.
  - destruct (ProductsPage.editingVariant (st pg)) as [e|];
      [|destruct (ProductsPage.selectedProduct (st pg)) as [p|]];
      split; try discriminate; try (intros [? ?]; discriminate);
      intros _; split; reflexivity.
  - intros r Hr.
    destruct (ProductsPage.editingVariant (st pg)) as [e|];
      [|destruct (ProductsPage.selectedProduct (st pg)) as [p|];
        [|discriminate Hr]];
      injection Hr as <-; (split; [|split]).
    + intros e' [= <-]. split; reflexivity.
    + intros p Hn. discriminate Hn.
    + eexists. split; [reflexivity|]. simpl.
      repeat split;
        first [ apply text_rule_or_undefined | apply number_rule_parse ].
    + intros e Hn. discriminate Hn.
    + intros p' _ [= <-]. split; reflexivity.
    + eexists. split; [reflexivity|]. simpl.
      repeat split;
        first [ apply text_rule_or_undefined | apply number_rule_parse ].
Qed.

End products_forms.

(** Creating a product after an edit was closed: no description. *)
Lemma product_forms_untouched_example :
  ∃ d, data (ProductsForms.handleProductSubmit
               (ProductsForms.run (H:=integer_numbers) ProductsForms.initial
                  [ProductsForms.OpenEditProduct second_product;
                   ProductsForms.CloseProductModal;
                   ProductsForms.OpenCreateProduct;
                   ProductsForms.SetProductName "Salt lick"])) = Some d
       ∧ ProductsForms.data_name d = "Salt lick"
       ∧ ProductsForms.data_description d = None.
Proof.
  destruct (proj1 (product_forms_untouched (H:=integer_numbers)
              [ProductsForms.OpenEditProduct second_product;
               ProductsForms.CloseProductModal;
               ProductsForms.OpenCreateProduct;
               ProductsForms.SetProductName "Salt lick"]))
    as (d & Hd & _ & Hpost).
  exists d. split; [exact Hd|]. split; [|now apply Hpost].
  injection Hd as <-. reflexivity.
Defined.

(** Creating a variant after selecting a product, and without one. *)
Lemma variant_submit_example :
  url <$> ProductsForms.handleVariantSubmit
            (ProductsForms.run (H:=integer_numbers) ProductsForms.initial
               [ProductsForms.SelectProduct second_product;
                ProductsForms.OpenCreateVariant;
                ProductsForms.SetSku "SL-1"])
  = Some "/products/p2/variants"
  ∧ ProductsForms.handleVariantSubmit
      (ProductsForms.run (H:=integer_numbers) ProductsForms.initial
         [ProductsForms.OpenCreateVariant; ProductsForms.SetSku "SL-1"])
    = None.
Proof.
  split.
  - destruct (ProductsForms.handleVariantSubmit _) as [r|] eqn:Hr;
      [|discriminate Hr].
    destruct (proj2 (variant_submit _) r Hr) as (_ & Hcreate & _).
    destruct (Hcreate second_product eq_refl eq_refl) as [_ Hu].
    simpl. now rewrite Hu.
  - apply (proj1 (variant_submit _)). split; reflexivity.
Defined.

(** ** The mapping form *)

Section mapping_form.

Context `{JSNumber}.

Import MappingForm.

Lemma step_variant_fixed (pg pg' : page) (ev : event) :
  variant_fixed pg → step pg ev = Some pg' → variant_fixed pg'.
Proof.
  unfold variant_fixed. intros Hinv Hstep.
  destruct ev; simpl in Hstep;
    try (destruct (RetailerProductsPage.editing (st pg)) eqn:He;
         [discriminate Hstep|]);
    injection Hstep as <-; simpl; intros m Hm;
    first [ discriminate Hm | now injection Hm as <- | now apply Hinv
          | congruence ].
Qed.

Lemma run_variant_fixed (evs : list event) (pg pg' : page) :
  variant_fixed pg → run pg evs = Some pg' → variant_fixed pg'.
Proof.
  revert pg. induction evs as [|ev evs IH]; intros pg Hinv Hrun;
    simpl in Hrun.
  - now injection Hrun as <-.
  - destruct (step pg ev) as [pg1|] eqn:Hstep; [|discriminate Hrun].
    apply (IH pg1); [|exact Hrun]. exact (step_variant_fixed pg pg1 ev Hinv Hstep).
Qed.

(** X15.  The variant select is shown only while a mapping is created.
    Hence, along every sequence of events of the mapping page, submitting
    the form while a mapping is edited sends a [PATCH] to
    [/retailer-products/{id}] of that mapping whose [product_variant_id]
    is the mapping's own: an edit cannot move a mapping to another
    variant.  Submitting fails exactly when a mapping is created while no
    retailer is selected. *)
Theorem mapping_edit_keeps_variant (evs : list event) (pg : page) :
  run initial evs = Some pg →
  (∀ m, RetailerProductsPage.editing (st pg) = Some m →
        ∃ d, handleSubmit pg
             = Some (apiClient.patch ("/retailer-products/" ++ rp_id m) d)
             ∧ data_product_variant_id d = rp_product_variant_id m)
  ∧ (handleSubmit pg = None
     ↔ RetailerProductsPage.editing (st pg) = None
       ∧ RetailerProductsPage.selectedRetailer (st pg) = None).
Proof.
  intros Hrun.
  assert (Hinv : variant_fixed pg).
  { apply (run_variant_fixed evs initial pg); [|exact Hrun].
    intros m Hm. discriminate Hm. }
  unfold handleSubmit. split.
  - intros m Hm. rewrite Hm. eexists. split; [reflexivity|]. simpl.
    now apply Hinv.
  - destruct (RetailerProductsPage.editing (st pg)) as [e|];
      [|destruct (RetailerProductsPage.selectedRetailer (st pg)) as [r|]];
      split; try discriminate; try (intros [? ?]; discriminate);
      intros _; split; reflexivity.
Qed.

End mapping_form.

Lemma mapping_edit_keeps_variant_example :
  ∃ pg d,
    MappingForm.run (H:=integer_numbers) MappingForm.initial
      [MappingForm.SelectRetailer sample_retailer;
       MappingForm.OpenCreate; MappingForm.SetVariant "v2";
       MappingForm.CloseModal;
       MappingForm.OpenEdit sample_mapping; MappingForm.SetPrice "175"]
    = Some pg
    ∧ MappingForm.handleSubmit pg
      = Some (apiClient.patch "/retailer-products/m1" d)
    ∧ MappingForm.data_product_variant_id d = "v1".
Proof.
  eexists.
  destruct (proj1 (mapping_edit_keeps_variant (H:=integer_numbers)
              [MappingForm.SelectRetailer sample_retailer;
               MappingForm.OpenCreate; MappingForm.SetVariant "v2";
               MappingForm.CloseModal;
               MappingForm.OpenEdit sample_mapping; MappingForm.SetPrice "175"]
              _ eq_refl) sample_mapping eq_refl) as (d & Hs & Hv).
  exists d. split; [reflexivity|]. split; [exact Hs | exact Hv].
Defined.

(** ** Success handlers in any order *)

Lemma invalidateQueries_comm (k1 k2 : queryKey) (cache : list query_entry) :
  invalidateQueries k1 (invalidateQueries k2 cache)
  = invalidateQueries k2 (invalidateQueries k1 cache).
Proof.
  unfold invalidateQueries. rewrite !map_map. apply map_ext. intros e.
  destruct (partialMatchKey (entry_key e) k1) eqn:H1,
           (partialMatchKey (entry_key e) k2) eqn:H2;
    simpl; rewrite ?H1, ?H2; reflexivity.
Qed.

Lemma invalidateQueries_idem (k : queryKey) (cache : list query_entry) :
  invalidateQueries k (invalidateQueries k cache) = invalidateQueries k cache.
Proof.
  unfold invalidateQueries. rewrite map_map. apply map_ext. intros e.
  destruct (partialMatchKey (entry_key e) k) eqn:H1;
    simpl; rewrite ?H1; reflexivity.
Qed.

(** X16.  The success handlers of two mutations can run in either order:
    pages and cache end up the same.  Running a success handler twice is
    the same as running it once. *)
Theorem onSuccess_order_irrelevant `{JSNumber} (m1 m2 : mutation) (p : pages)
    (cache : list query_entry) :
  (let '(p1, c1) := onSuccess m1 p cache in onSuccess m2 p1 c1)
  = (let '(p2, c2) := onSuccess m2 p cache in onSuccess m1 p2 c2)
  ∧ (let '(p1, c1) := onSuccess m1 p cache in onSuccess m1 p1 c1)
    = onSuccess m1 p cache.
Proof.
  split.
  - destruct m1, m2; cbn -[invalidateQueries];
      first [ reflexivity
            | f_equal; apply invalidateQueries_comm ].
  - destruct m1; cbn -[invalidateQueries]; f_equal;
      apply invalidateQueries_idem.
Qed.

(** ** List queries: cache keys and requests *)

(** X17.  The orders list is requested from [/orders] with a [status]
    parameter exactly when a filter is chosen, never with an empty one and
    never with another parameter.  Two filters share a cache entry exactly
    when they lead to the same request. *)
Theorem orders_list_request (f : string) :
  method (OrdersTable.listRequest (D:=unit) f) = GET
  ∧ url (OrdersTable.listRequest (D:=unit) f) = "/orders"
  ∧ params (OrdersTable.listRequest (D:=unit) f)
    = (if decide (f = "") then [] else [("status", f)])
  ∧ (∀ k v, (k, v) ∈ params (OrdersTable.listRequest (D:=unit) f) →
            k = "status" ∧ v = f ∧ v ≠ "")
  ∧ (∀ f', key_of (OrdersTable.listQuery f) = key_of (OrdersTable.listQuery f')
           ↔ OrdersTable.listRequest (D:=unit) f
             = OrdersTable.listRequest (D:=unit) f').
Proof.
  assert (Hp : ∀ g, params (OrdersTable.listRequest (D:=unit) g)
                    = if decide (g = "") then [] else [("status", g)]).
  { intros g. unfold OrdersTable.listRequest.
    destruct (decide (g = "")) as [-> | Hg]; [reflexivity|].
    apply truthy_true_iff in Hg. now rewrite Hg. }
  split; [reflexivity|]. split; [reflexivity|]. split; [apply Hp|]. split.
  - intros k v. rewrite Hp. destruct (decide (f = "")) as [-> | Hf].
    + intros Hin. now apply elem_of_nil in Hin.
    + intros Hin. apply elem_of_cons in Hin as [[= -> ->] | Hin];
        [auto | now apply elem_of_nil in Hin].
  - intros f'. split.
    + intros [= ->]. reflexivity.
    + intros Heq. apply (f_equal params) in Heq. rewrite !Hp in Heq.
      destruct (decide (f = "")) as [-> | Hf],
               (decide (f' = "")) as [-> | Hf'];
        try discriminate Heq; [reflexivity|].
      injection Heq as ->. reflexivity.
Qed.

(** X18.  For the variants of a selected product and for the mappings of
    a selected retailer, two selections share a cache entry exactly when
    their lists are read from the same URL. *)
Theorem selected_list_keys `{JSNumber} :
  (∀ st st' p p',
     ProductsPage.selectedProduct st = Some p →
     ProductsPage.selectedProduct st' = Some p' →
     key_of (ProductsPage.variantsQuery st)
     = key_of (ProductsPage.variantsQuery st')
     ↔ url (productsApi.listVariants (D:=unit) (p_id p))
       = url (productsApi.listVariants (D:=unit) (p_id p')))
  ∧ (∀ st st' r r',
       RetailerProductsPage.selectedRetailer st = Some r →
       RetailerProductsPage.selectedRetailer st' = Some r' →
       key_of (RetailerProductsPage.mappingsQuery st)
       = key_of (RetailerProductsPage.mappingsQuery st')
       ↔ url (retailersApi.listProducts (D:=unit) (r_id r))
         = url (retailersApi.listProducts (D:=unit) (r_id r'))).
Proof.
  split.
  - intros st st' p p' Hs Hs'. unfold ProductsPage.variantsQuery.
    rewrite Hs, Hs'. simpl. split.
    + intros [= ->]. reflexivity.
    + intros Hu. f_equal. f_equal. f_equal.
      apply (instantiate_inj [Lit "products"; Param; Lit "variants"]);
        [apply list_elem_of_further, list_elem_of_here|].
      transitivity (url (productsApi.listVariants (D:=unit) (p_id p)));
        [symmetry; exact (issue_url (ProductsListVariants (p_id p)))|].
      transitivity (url (productsApi.listVariants (D:=unit) (p_id p')));
        [exact Hu | exact (issue_url (ProductsListVariants (p_id p')))].
  - intros st st' r r' Hs Hs'. unfold RetailerProductsPage.mappingsQuery.
    rewrite Hs, Hs'. simpl. split.
    + intros [= ->]. reflexivity.
    + intros Hu. f_equal. f_equal. f_equal.
      apply (instantiate_inj [Lit "retailers"; Param; Lit "products"]);
        [apply list_elem_of_further, list_elem_of_here|].
      transitivity (url (retailersApi.listProducts (D:=unit) (r_id r)));
        [symmetry; exact (issue_url (RetailersListProducts (r_id r)))|].
      transitivity (url (retailersApi.listProducts (D:=unit) (r_id r')));
        [exact Hu | exact (issue_url (RetailersListProducts (r_id r')))].
Qed.

(** ** Shortened ids in the order tables *)

Lemma substring_0_length (n : nat) (s : string) :
  String.length (String.substring 0 n s) = Nat.min n (String.length s).
Proof.
  revert n. induction s as [|a s IH]; intros [|n]; simpl; auto.
Qed.

Lemma substring_0_prefix (n : nat) (s : string) :
  String.prefix (String.substring 0 n s) s = true.
Proof.
  revert n. induction s as [|a s IH]; intros [|n]; simpl; auto.
  destruct (ascii_dec a a); [apply IH | contradiction].
Qed.

Lemma substring_0_all (n : nat) (s : string) :
  (String.length s ≤ n)%nat → String.substring 0 n s = s.
Proof.
  revert n. induction s as [|a s IH]; intros [|n] Hl; simpl in *;
    try reflexivity; try lia.
  f_equal. apply IH. lia.
Qed.

Lemma slice8_nonempty (s : string) : s ≠ "" → OrdersTable.slice8 s ≠ "".
Proof. destruct s; [congruence | discriminate]. Qed.

(** X19.  The Farmer, Retailer and Product Variant cells are never empty
    and at most eight characters long: they show [-] for an absent or
    empty id and otherwise the first eight characters of the id, which is
    the whole id when it has at most eight.  The Order ID cell is that
    same prefix followed by three dots. *)
Theorem order_id_cells :
  (∀ x, OrdersTable.shortOrDash x ≠ ""
        ∧ (String.length (OrdersTable.shortOrDash x) ≤ 8)%nat)
  ∧ (∀ x, x = None ∨ x = Some "" → OrdersTable.shortOrDash x = "-")
  ∧ (∀ s, s ≠ "" →
       OrdersTable.shortOrDash (Some s) = OrdersTable.slice8 s
       ∧ OrdersTable.idCell s = OrdersTable.shortOrDash (Some s) ++ "...")
  ∧ (∀ s, startsWith s (OrdersTable.slice8 s) = true
          ∧ String.length (OrdersTable.slice8 s)
            = Nat.min 8 (String.length s)
          ∧ ((String.length s ≤ 8)%nat → OrdersTable.slice8 s = s)).
Proof.
  assert (Hs : ∀ s, s ≠ "" →
                    OrdersTable.shortOrDash (Some s) = OrdersTable.slice8 s).
  { intros s Hne. unfold OrdersTable.shortOrDash. simpl.
    apply slice8_nonempty, truthy_true_iff in Hne. now rewrite Hne. }
  split; [|split; [|split]].
  - intros x. split.
    + apply or_default_nonempty. discriminate.
    + destruct x as [s|]; [|simpl; lia].
      destruct (decide (s = "")) as [-> | Hne]; [simpl; lia|].
      rewrite Hs by exact Hne. unfold OrdersTable.slice8.
      rewrite substring_0_length. lia.
  - intros x [-> | ->]; reflexivity.
  - intros s Hne. split; [now apply Hs|].
    unfold OrdersTable.idCell. now rewrite Hs.
  - intros s. unfold OrdersTable.slice8, startsWith. split; [|split].
    + apply substring_0_prefix.
    + apply substring_0_length.
    + apply substring_0_all.
Qed.

Lemma order_id_cells_example :
  OrdersTable.idCell "0a1b2c3d-4e5f" = "0a1b2c3d..."
  ∧ OrdersTable.shortOrDash (Some "f17") = "f17".
Proof.
  destruct order_id_cells as (_ & _ & Hs & Hsl).
  destruct (Hs "0a1b2c3d-4e5f" ltac:(discriminate)) as [_ Hid].
  destruct (Hs "f17" ltac:(discriminate)) as [Hf _].
  destruct (Hsl "f17") as (_ & _ & Hall).
  split; [rewrite Hid; reflexivity|].
  rewrite Hf. apply Hall. simpl. lia.
Defined.

(** ** The status badge *)

(** X20.  A status badge has one of two renderings, and class and text
    always go together: the active class with the active text (default
    [Active]) exactly for the boolean [true] and the string [active], the
    inactive class with the inactive text (default [Inactive]) for
    everything else. *)
Theorem status_badge_renderings (p : StatusBadge.props) :
  let s := StatusBadge.StatusBadge p in
  (StatusBadge.className s = "status-badge active"
   ∧ StatusBadge.text s = default "Active" (StatusBadge.activeText p)
   ∧ (StatusBadge.badge_status p = StatusBadge.OfBool true
      ∨ StatusBadge.badge_status p = StatusBadge.OfString "active"))
  ∨ (StatusBadge.className s = "status-badge inactive"
     ∧ StatusBadge.text s = default "Inactive" (StatusBadge.inactiveText p)
     ∧ StatusBadge.badge_status p ≠ StatusBadge.OfBool true
     ∧ StatusBadge.badge_status p ≠ StatusBadge.OfString "active").
Proof.
  destruct p as [[[|]|s] a i]; simpl.
  - left. auto.
  - right. repeat split; discriminate.
  - unfold StatusBadge.StatusBadge. simpl.
    destruct (String.eqb_spec s "active") as [-> | Hs].
    + left. auto.
    + right. repeat split; congruence.
Qed.

(** ** The table: header, cells and cursor *)


